(** * FantasyMapCrafter: the in-memory map-editing model

    Shallow embedding of the editor state and its operations
    ([src/client/src/contexts/EditorContext.tsx], [mapTypes.ts] and
    [canvasUtils.ts]).

    Modelling conventions.
    - JS numbers used as cell coordinates, sizes and indices are [Z];
      pixel coordinates are exact rationals [Q].
    - A cell of a tile array is [option string]: [None] is [null].
    - A layer is a JS object whose fields may be absent ([JsLayer] with
      [option] fields), and the layer array of the state may have holes
      ([list (option JsLayer)], [None] is a hole / [undefined]).
    - An operation that throws (TypeError, RangeError) returns [None]:
      React then keeps the previous state and surfaces the error. *)

From Stdlib Require Import ZArith QArith Qround Lia Lqa.
From Stdlib Require Import DecimalN Ascii.
From stdpp Require Import base list sets strings.

Open Scope Z_scope.

(** ** Data model ([shared/schema.ts], [lib/mapTypes.ts]) *)

Inductive MapType := Grid | Hex.

Inductive DrawingTool := SmallBrush | LargeBrush | Fill | Eraser.

(** [TilePosition = { tilesetId; x; y }]; the projections are named
    [tile_x] and [tile_y] to keep [x] and [y] free for coordinates. *)
Record TilePosition := mkTilePosition {
  tilesetId : Z;
  tile_x : Z;
  tile_y : Z
}.

Record MapSize := mkMapSize { width : Z; height : Z }.

Abbreviation cell := (option string).
Abbreviation grid := (list (list cell)).

(** A layer object; every field of a layer built by [createEmptyLayer] is
    present, while objects written by [renameLayer] at a missing index only
    carry a [name]. *)
Record JsLayer := mkJsLayer {
  id : option string;
  name : option string;
  visible : option bool;
  tiles : option grid
}.

Record MultiTileSelection := mkMultiTileSelection {
  sel_width : Z;
  sel_height : Z;
  sel_tiles : list (list (option TilePosition))
}.

Record EditorState := mkEditorState {
  mapType : MapType;
  tileSize : Z;
  mapSize : MapSize;
  selectedTool : DrawingTool;
  currentLayer : Z;
  layers : list (option JsLayer);
  selectedTileset : option Z;
  selectedTile : option TilePosition;
  multiTileSelection : MultiTileSelection;
  cursorPosition : option (Z * Z);
  zoomLevel : Z
}.

(** Object spread [{...prevState, field: v}] for the fields the operations
    update. *)
Definition with_layers (st : EditorState) (ls : list (option JsLayer)) :=
  mkEditorState st.(mapType) st.(tileSize) st.(mapSize) st.(selectedTool)
    st.(currentLayer) ls st.(selectedTileset) st.(selectedTile)
    st.(multiTileSelection) st.(cursorPosition) st.(zoomLevel).

Definition with_layers_current (st : EditorState) (ls : list (option JsLayer))
    (cur : Z) :=
  mkEditorState st.(mapType) st.(tileSize) st.(mapSize) st.(selectedTool)
    cur ls st.(selectedTileset) st.(selectedTile)
    st.(multiTileSelection) st.(cursorPosition) st.(zoomLevel).

(** ** JS arrays *)

(** [a[i]] on an array with holes: [None] is [undefined].  Negative
    indices name no element. *)
Definition js_get {A} (a : list (option A)) (i : Z) : option A :=
  if i <? 0 then None else mjoin (a !! Z.to_nat i).

(** [a[i] = v]: inside the array it replaces the element, past its end it
    extends the array with holes.  A negative [i] creates a non-index
    property, which [length], iteration, spread and JSON never see, so the
    elements are unchanged. *)
Definition js_set {A} (a : list (option A)) (i : Z) (v : A) : list (option A) :=
  if i <? 0 then a
  else if (Z.to_nat i <? length a)%nat then <[Z.to_nat i := Some v]> a
  else a ++ replicate (Z.to_nat i - length a)%nat None ++ [Some v].

(** [a.splice(index, 1)] (the removed element is not used). *)
Definition splice_start (len : nat) (index : Z) : nat :=
  if index <? 0 then Z.to_nat (Z.max (Z.of_nat len + index) 0)
  else Nat.min (Z.to_nat index) len.

Definition splice1 {A} (a : list A) (index : Z) : list A :=
  let s := splice_start (length a) index in
  take s a ++ drop (S s) a.

(** ** Tile arrays *)

(** [tiles[y][x]], read only at coordinates inside the map, where the
    dimension invariant ([wf_grid]) makes both indices valid. *)
Definition cell_at (g : grid) (x y : Z) : cell :=
  match g !! Z.to_nat y with
  | Some row => match row !! Z.to_nat x with Some c => c | None => None end
  | None => None
  end.

(** [tiles[y][x] = v], written only at coordinates inside the map. *)
Definition set_cell (g : grid) (x y : Z) (v : cell) : grid :=
  alter (fun row => <[Z.to_nat x := v]> row) (Z.to_nat y) g.

Definition in_bounds (ms : MapSize) (x y : Z) : bool :=
  (0 <=? x) && (0 <=? y) && (x <? ms.(width)) && (y <? ms.(height)).

(** The dimension invariant: [height] rows of [width] cells. *)
Definition wf_grid (ms : MapSize) (g : grid) : Prop :=
  length g = Z.to_nat ms.(height) /\
  Forall (fun row => length row = Z.to_nat ms.(width)) g.

(** ** Tile encoding *)

(** Decimal digits of an unsigned decimal number. *)
Fixpoint uint_to_string (d : Decimal.uint) : string :=
  match d with
  | Decimal.Nil => EmptyString
  | Decimal.D0 d => String "0"%char (uint_to_string d)
  | Decimal.D1 d => String "1"%char (uint_to_string d)
  | Decimal.D2 d => String "2"%char (uint_to_string d)
  | Decimal.D3 d => String "3"%char (uint_to_string d)
  | Decimal.D4 d => String "4"%char (uint_to_string d)
  | Decimal.D5 d => String "5"%char (uint_to_string d)
  | Decimal.D6 d => String "6"%char (uint_to_string d)
  | Decimal.D7 d => String "7"%char (uint_to_string d)
  | Decimal.D8 d => String "8"%char (uint_to_string d)
  | Decimal.D9 d => String "9"%char (uint_to_string d)
  end.

(** [String(n)] for an integral JS number: optional [-], then the decimal
    digits of the magnitude without leading zeros. *)
Definition number_to_string (z : Z) : string :=
  if z <? 0 then String "-"%char (uint_to_string (N.to_uint (Z.to_N (- z))))
  else uint_to_string (N.to_uint (Z.to_N z)).

Definition digit_of_ascii (c : ascii) (d : Decimal.uint) : option Decimal.uint :=
  if Ascii.eqb c "0"%char then Some (Decimal.D0 d)
  else if Ascii.eqb c "1"%char then Some (Decimal.D1 d)
  else if Ascii.eqb c "2"%char then Some (Decimal.D2 d)
  else if Ascii.eqb c "3"%char then Some (Decimal.D3 d)
  else if Ascii.eqb c "4"%char then Some (Decimal.D4 d)
  else if Ascii.eqb c "5"%char then Some (Decimal.D5 d)
  else if Ascii.eqb c "6"%char then Some (Decimal.D6 d)
  else if Ascii.eqb c "7"%char then Some (Decimal.D7 d)
  else if Ascii.eqb c "8"%char then Some (Decimal.D8 d)
  else if Ascii.eqb c "9"%char then Some (Decimal.D9 d)
  else None.

Fixpoint string_to_uint (s : string) : option Decimal.uint :=
  match s with
  | EmptyString => Some Decimal.Nil
  | String c s' =>
      match string_to_uint s' with
      | Some d => digit_of_ascii c d
      | None => None
      end
  end.

(** [Number(s)] on the strings of an optionally signed run of decimal
    digits, which is what [number_to_string] produces ([Number("")] is 0,
    [Number("-")] is NaN).  [None] stands for every other string, whose
    JS value (NaN, a fraction, a hexadecimal literal, ...) this model does
    not track. *)
Definition Number_int (s : string) : option Z :=
  match s with
  | EmptyString => Some 0
  | String c rest =>
      if Ascii.eqb c "-"%char then
        match rest with
        | EmptyString => None
        | _ => option_map (fun d => - Z.of_N (N.of_uint d)) (string_to_uint rest)
        end
      else option_map (fun d => Z.of_N (N.of_uint d)) (string_to_uint s)
  end.

(** [s.split(sep)] for a one-character separator. *)
Fixpoint split_on (sep : ascii) (s : string) : list string :=
  match s with
  | EmptyString => [EmptyString]
  | String c s' =>
      if Ascii.eqb c sep then EmptyString :: split_on sep s'
      else match split_on sep s' with
           | w :: ws => String c w :: ws
           | [] => [String c EmptyString]
           end
  end.

(** The value stored in a cell for a tile:
    [`${tilesetId},${x},${y}`]. *)
Definition encode_tile (tp : TilePosition) : string :=
  String.append (number_to_string tp.(tilesetId))
    (String ","%char (String.append (number_to_string tp.(tile_x))
      (String ","%char (number_to_string tp.(tile_y))))).

(** [drawLayer]'s parse: [const [tilesetId, tileX, tileY] =
    tile.split(',').map(Number)]; [Some] when the three components exist
    and are integers. *)
Definition decode_tile (s : string) : option (Z * Z * Z) :=
  match map Number_int (split_on ","%char s) with
  | Some a :: Some b :: Some c :: _ => Some (a, b, c)
  | _ => None
  end.

(** ** Paint tools ([applyToolAtPosition]) *)

(** The four cells pushed after filling [(cx, cy)], in push order. *)
Definition neighbours (cx cy : Z) : list (Z * Z) :=
  [(cx + 1, cy); (cx - 1, cy); (cx, cy + 1); (cx, cy - 1)].

(** The queue-based flood fill ([while (queue.length > 0)]): [queue.shift()]
    takes the head, [queue.push] appends.  [fuel] bounds the number of
    iterations; [None] means it ran out. *)
Fixpoint fill_loop (fuel : nat) (ms : MapSize) (targetValue replacementValue : cell)
    (g : grid) (queue : list (Z * Z)) : option grid :=
  match queue with
  | [] => Some g
  | (cx, cy) :: rest =>
      match fuel with
      | O => None
      | S fuel' =>
          if negb (in_bounds ms cx cy) then
            fill_loop fuel' ms targetValue replacementValue g rest
          else if negb (bool_decide (cell_at g cx cy = targetValue)) then
            fill_loop fuel' ms targetValue replacementValue g rest
          else
            fill_loop fuel' ms targetValue replacementValue
              (set_cell g cx cy replacementValue)
              (rest ++ neighbours cx cy)
      end
  end.

(** Iterations given to the loop: one per queue entry, and a cell of the
    map is filled at most once, pushing four entries. *)
Definition fill_fuel (ms : MapSize) : nat :=
  (4 * Z.to_nat ms.(width) * Z.to_nat ms.(height) + 1)%nat.

(** The 3x3 block of the large brush: [for dy] outside, [for dx] inside,
    each neighbour written only when inside the map. *)
Definition large_brush (ms : MapSize) (x y : Z) (v : cell) (g : grid) : grid :=
  fold_left (fun g dy =>
    fold_left (fun g dx =>
      let nx := x + dx in
      let ny := y + dy in
      if in_bounds ms nx ny then set_cell g nx ny v else g) [-1; 0; 1] g)
    [-1; 0; 1] g.

Definition update_layer (l : JsLayer) (g : grid) : JsLayer :=
  mkJsLayer l.(id) l.(name) l.(visible) (Some g).

Definition applyToolAtPosition (x y : Z) (prevState : EditorState)
    : option EditorState :=
  let newLayers := prevState.(layers) in
  match js_get newLayers prevState.(currentLayer) with
  | None => None (* currentLayer.tiles on undefined *)
  | Some cl =>
      match cl.(tiles) with
      | None => None (* undefined.map *)
      | Some newTiles =>
          let ms := prevState.(mapSize) in
          let commit (g : grid) :=
            Some (with_layers prevState
                    (js_set newLayers prevState.(currentLayer) (update_layer cl g))) in
          if negb (in_bounds ms x y) then Some prevState
          else
            match prevState.(selectedTool) with
            | SmallBrush =>
                match prevState.(selectedTile) with
                | Some tp => commit (set_cell newTiles x y (Some (encode_tile tp)))
                | None => commit newTiles
                end
            | LargeBrush =>
                match prevState.(selectedTile) with
                | Some tp => commit (large_brush ms x y (Some (encode_tile tp)) newTiles)
                | None => commit newTiles
                end
            | Fill =>
                match prevState.(selectedTile) with
                | Some tp =>
                    let targetValue := cell_at newTiles x y in
                    let replacementValue := Some (encode_tile tp) in
                    if bool_decide (targetValue = replacementValue) then Some prevState
                    else
                      match fill_loop (fill_fuel ms) ms targetValue replacementValue
                              newTiles [(x, y)] with
                      | Some g => commit g
                      | None => None
                      end
                | None => commit newTiles
                end
            | Eraser => commit (set_cell newTiles x y None)
            end
      end
  end.

(** ** Layer operations *)

(** [createEmptyLayer(width, height, name)]; [id] is the random string
    the source draws with [Math.random].  [Array(n)] throws a RangeError
    for a negative [n]; the rows are built only when [height > 0]. *)
Definition createEmptyLayer (width height : Z) (nm fresh_id : string)
    : option JsLayer :=
  if height <? 0 then None
  else if (0 <? height) && (width <? 0) then None
  else Some (mkJsLayer (Some fresh_id) (Some nm) (Some true)
               (Some (replicate (Z.to_nat height) (replicate (Z.to_nat width) None)))).

Definition addLayer (fresh_id : string) (prevState : EditorState)
    : option EditorState :=
  let n := length prevState.(layers) in
  match createEmptyLayer prevState.(mapSize).(width) prevState.(mapSize).(height)
          (String.append "Layer " (number_to_string (Z.of_nat n + 1))) fresh_id with
  | None => None
  | Some newLayer =>
      Some (with_layers_current prevState (prevState.(layers) ++ [Some newLayer])
              (Z.of_nat n))
  end.

Definition removeLayer (index : Z) (prevState : EditorState) : EditorState :=
  if (length prevState.(layers) <=? 1)%nat then prevState
  else
    let newLayers := splice1 prevState.(layers) index in
    let newCurrentLayer :=
      if prevState.(currentLayer) >=? Z.of_nat (length newLayers)
      then Z.of_nat (length newLayers) - 1
      else prevState.(currentLayer) in
    with_layers_current prevState newLayers newCurrentLayer.

Definition setCurrentLayer (index : Z) (prevState : EditorState) : EditorState :=
  with_layers_current prevState prevState.(layers) index.

(** Truthiness of an optional boolean field ([!undefined] is [true]). *)
Definition truthy (b : option bool) : bool :=
  match b with Some b => b | None => false end.

(** [{...newLayers[index], visible: !newLayers[index].visible}]: reading
    [.visible] of [undefined] throws. *)
Definition toggleLayerVisibility (index : Z) (prevState : EditorState)
    : option EditorState :=
  let newLayers := prevState.(layers) in
  match js_get newLayers index with
  | None => None
  | Some l =>
      Some (with_layers prevState
              (js_set newLayers index
                 (mkJsLayer l.(id) l.(name) (Some (negb (truthy l.(visible)))) l.(tiles))))
  end.

(** The empty object [{...undefined}]. *)
Definition empty_object : JsLayer := mkJsLayer None None None None.

Definition renameLayer (index : Z) (nm : string) (prevState : EditorState)
    : EditorState :=
  let newLayers := prevState.(layers) in
  let base := match js_get newLayers index with Some l => l | None => empty_object end in
  with_layers prevState
    (js_set newLayers index (mkJsLayer base.(id) (Some nm) base.(visible) base.(tiles))).

(** ** Map resize ([setMapSize]) *)

(** The new tile array of one layer: cell [(x, y)] is
    [y < tiles.length && x < tiles[0].length ? tiles[y][x] : null]. *)
Definition resize_tiles (old : grid) (width height : Z) : grid :=
  map (fun y =>
    map (fun x =>
      if (Z.to_nat y <? length old)%nat
         && (Z.to_nat x <? match old with row :: _ => length row | [] => O end)%nat
      then cell_at old x y else None) (seqZ 0 width)) (seqZ 0 height).

(** [Array(height)] throws for a negative height, [Array(width)] (built
    once per row) for a negative width, and [layer.tiles.length] for a
    layer without tiles as soon as a cell is computed. *)
Definition resize_layer (width height : Z) (l : JsLayer) : option JsLayer :=
  if height <? 0 then None
  else if (0 <? height) && (width <? 0) then None
  else match l.(tiles) with
       | Some old => Some (update_layer l (resize_tiles old width height))
       | None =>
           if (0 <? height) && (0 <? width) then None
           else Some (update_layer l (resize_tiles [] width height))
       end.

(** [prevState.layers.map(...)]: holes are skipped and kept. *)
Fixpoint resize_layers (width height : Z) (ls : list (option JsLayer))
    : option (list (option JsLayer)) :=
  match ls with
  | [] => Some []
  | None :: ls' =>
      match resize_layers width height ls' with
      | Some r => Some (None :: r)
      | None => None
      end
  | Some l :: ls' =>
      match resize_layer width height l, resize_layers width height ls' with
      | Some l', Some r => Some (Some l' :: r)
      | _, _ => None
      end
  end.

Definition setMapSize (width height : Z) (prevState : EditorState)
    : option EditorState :=
  match resize_layers width height prevState.(layers) with
  | None => None
  | Some newLayers =>
      Some (mkEditorState prevState.(mapType) prevState.(tileSize)
              (mkMapSize width height) prevState.(selectedTool)
              prevState.(currentLayer) newLayers prevState.(selectedTileset)
              prevState.(selectedTile) prevState.(multiTileSelection)
              prevState.(cursorPosition) prevState.(zoomLevel))
  end.

(** ** Initial state and the remaining setters *)

Definition single_selection (tile : option TilePosition) : MultiTileSelection :=
  mkMultiTileSelection 1 1 [[tile]].

Definition createInitialEditorState (mt : MapType) (ts width height : Z)
    (fresh_id : string) : option EditorState :=
  match createEmptyLayer width height "Layer 1 (Base)" fresh_id with
  | None => None
  | Some baseLayer =>
      Some (mkEditorState mt ts (mkMapSize width height) SmallBrush 0
              [Some baseLayer] None None (single_selection None) None 100)
  end.

(** The provider's initial state: [createInitialEditorState()] with its
    defaults [grid], 16, 64, 64. *)
Definition initialState (fresh_id : string) : option EditorState :=
  createInitialEditorState Grid 16 64 64 fresh_id.

Definition setMapType (t : MapType) (s : EditorState) : EditorState :=
  mkEditorState t s.(tileSize) s.(mapSize) s.(selectedTool) s.(currentLayer)
    s.(layers) s.(selectedTileset) s.(selectedTile) s.(multiTileSelection)
    s.(cursorPosition) s.(zoomLevel).

Definition setTileSize (size : Z) (s : EditorState) : EditorState :=
  mkEditorState s.(mapType) size s.(mapSize) s.(selectedTool) s.(currentLayer)
    s.(layers) s.(selectedTileset) s.(selectedTile) s.(multiTileSelection)
    s.(cursorPosition) s.(zoomLevel).

Definition setSelectedTool (tool : DrawingTool) (s : EditorState) : EditorState :=
  mkEditorState s.(mapType) s.(tileSize) s.(mapSize) tool s.(currentLayer)
    s.(layers) s.(selectedTileset) s.(selectedTile) s.(multiTileSelection)
    s.(cursorPosition) s.(zoomLevel).

Definition setSelectedTileset (i : option Z) (s : EditorState) : EditorState :=
  mkEditorState s.(mapType) s.(tileSize) s.(mapSize) s.(selectedTool)
    s.(currentLayer) s.(layers) i None s.(multiTileSelection)
    s.(cursorPosition) s.(zoomLevel).

Definition setSelectedTile (tile : option TilePosition) (s : EditorState)
    : EditorState :=
  mkEditorState s.(mapType) s.(tileSize) s.(mapSize) s.(selectedTool)
    s.(currentLayer) s.(layers) s.(selectedTileset) tile (single_selection tile)
    s.(cursorPosition) s.(zoomLevel).

(** [tiles.flat().find(tile => tile !== null) || null]. *)
Fixpoint first_non_null {A} (l : list (option A)) : option A :=
  match l with
  | [] => None
  | Some a :: _ => Some a
  | None :: l' => first_non_null l'
  end.

Definition first_tile (ts : list (list (option TilePosition))) : option TilePosition :=
  first_non_null (mjoin ts).

Definition setMultiTileSelection (w h : Z) (ts : list (list (option TilePosition)))
    (s : EditorState) : EditorState :=
  mkEditorState s.(mapType) s.(tileSize) s.(mapSize) s.(selectedTool)
    s.(currentLayer) s.(layers) s.(selectedTileset) (first_tile ts)
    (mkMultiTileSelection w h ts) s.(cursorPosition) s.(zoomLevel).

Definition setCursorPosition (x y : Z) (s : EditorState) : EditorState :=
  mkEditorState s.(mapType) s.(tileSize) s.(mapSize) s.(selectedTool)
    s.(currentLayer) s.(layers) s.(selectedTileset) s.(selectedTile)
    s.(multiTileSelection) (Some (x, y)) s.(zoomLevel).

Definition setZoomLevel (level : Z) (s : EditorState) : EditorState :=
  mkEditorState s.(mapType) s.(tileSize) s.(mapSize) s.(selectedTool)
    s.(currentLayer) s.(layers) s.(selectedTileset) s.(selectedTile)
    s.(multiTileSelection) s.(cursorPosition) level.

(** ** Editor operations as one transition function *)

Inductive EditorOp :=
| OpSetMapType (t : MapType)
| OpSetTileSize (size : Z)
| OpSetMapSize (w h : Z)
| OpCreateNewMap (t : MapType) (ts w h : Z) (fresh_id : string)
| OpAddLayer (fresh_id : string)
| OpRemoveLayer (index : Z)
| OpSetCurrentLayer (index : Z)
| OpToggleLayerVisibility (index : Z)
| OpRenameLayer (index : Z) (nm : string)
| OpSetSelectedTool (tool : DrawingTool)
| OpSetSelectedTileset (i : option Z)
| OpSetSelectedTile (tile : option TilePosition)
| OpSetMultiTileSelection (w h : Z) (ts : list (list (option TilePosition)))
| OpSetCursorPosition (x y : Z)
| OpSetZoomLevel (level : Z)
| OpApplyToolAtPosition (x y : Z).

(** One [setState] of the provider; [None] when the updater throws, in
    which case the state stays as it was. *)
Definition exec (op : EditorOp) (st : EditorState) : option EditorState :=
  match op with
  | OpSetMapType t => Some (setMapType t st)
  | OpSetTileSize size => Some (setTileSize size st)
  | OpSetMapSize w h => setMapSize w h st
  | OpCreateNewMap t ts w h fid => createInitialEditorState t ts w h fid
  | OpAddLayer fid => addLayer fid st
  | OpRemoveLayer i => Some (removeLayer i st)
  | OpSetCurrentLayer i => Some (setCurrentLayer i st)
  | OpToggleLayerVisibility i => toggleLayerVisibility i st
  | OpRenameLayer i nm => Some (renameLayer i nm st)
  | OpSetSelectedTool tool => Some (setSelectedTool tool st)
  | OpSetSelectedTileset i => Some (setSelectedTileset i st)
  | OpSetSelectedTile tile => Some (setSelectedTile tile st)
  | OpSetMultiTileSelection w h ts => Some (setMultiTileSelection w h ts st)
  | OpSetCursorPosition x y => Some (setCursorPosition x y st)
  | OpSetZoomLevel level => Some (setZoomLevel level st)
  | OpApplyToolAtPosition x y => applyToolAtPosition x y st
  end.

(** A run of operations; an operation that throws leaves the state. *)
Fixpoint run (ops : list EditorOp) (st : EditorState) : EditorState :=
  match ops with
  | [] => st
  | op :: ops' =>
      run ops' (match exec op st with Some st' => st' | None => st end)
  end.

(** ** Coordinate transforms ([canvasUtils.ts]) *)

(** [hexWidth * 0.75] with [hexWidth = tileSize * 1.15]. *)
Definition hex_advance (tileSize : Q) : Q := tileSize * (115 # 100) * (3 # 4).

Definition mapToCanvasPosition (x y : Z) (tileSize : Q) (mt : MapType) : Q * Q :=
  match mt with
  | Grid => ((inject_Z x * tileSize)%Q, (inject_Z y * tileSize)%Q)
  | Hex =>
      let hexHeight := tileSize in
      let yOffset := if Z.rem x 2 =? 0 then 0%Q else (tileSize / 2)%Q in
      ((inject_Z x * hex_advance tileSize)%Q, (inject_Z y * hexHeight + yOffset)%Q)
  end.

Definition canvasToMapPosition (x y : Q) (tileSize : Q) (mt : MapType) : Z * Z :=
  match mt with
  | Grid => (Qfloor (x / tileSize)%Q, Qfloor (y / tileSize)%Q)
  | Hex =>
      let hexHeight := tileSize in
      let hexColumn := Qfloor (x / hex_advance tileSize)%Q in
      let hexRow := Qfloor (y / hexHeight - (if Z.rem hexColumn 2 =? 0 then 0 else 1 # 2))%Q in
      (hexColumn, hexRow)
  end.

(** ** Concrete checks *)

Definition empty_layer_5x5 : JsLayer :=
  mkJsLayer (Some "l1") (Some "Layer 1 (Base)") (Some true)
    (Some (replicate 5 (replicate 5 None))).

Definition state_5x5 (tool : DrawingTool) (tile : option TilePosition) : EditorState :=
  mkEditorState Grid 16 (mkMapSize 5 5) tool 0 [Some empty_layer_5x5] None tile
    (single_selection tile) None 100.

Definition layer_tiles (st : EditorState) (i : Z) : option grid :=
  match js_get st.(layers) i with Some l => l.(tiles) | None => None end.

(** Absence of a character, used to reason about [split_on]. *)
Fixpoint no_char (c : ascii) (s : string) : bool :=
  match s with
  | EmptyString => true
  | String c' s' => negb (Ascii.eqb c' c) && no_char c s'
  end.


(** The active-layer index names a position of the layer list. *)
Definition valid_current (st : EditorState) : Prop :=
  0 <= st.(currentLayer) < Z.of_nat (length st.(layers)).

(** [setCurrentLayer] is given an index that is valid in the state it
    acts on; every other operation is unrestricted. *)
Definition op_respects (op : EditorOp) (st : EditorState) : bool :=
  match op with
  | OpSetCurrentLayer i => (0 <=? i) && (i <? Z.of_nat (length st.(layers)))
  | _ => true
  end.

Fixpoint run_respects (ops : list EditorOp) (st : EditorState) : bool :=
  match ops with
  | [] => true
  | op :: ops' =>
      op_respects op st
      && run_respects ops' (match exec op st with Some st' => st' | None => st end)
  end.

Definition two_layer_state (cur : Z) : EditorState :=
  mkEditorState Grid 16 (mkMapSize 5 5) SmallBrush cur
    [Some empty_layer_5x5; Some empty_layer_5x5] None None
    (single_selection None) None 100.

(** One guarded write of the large brush. *)
Definition write_if_in (ms : MapSize) (v : cell) (g : grid) (p : Z * Z) : grid :=
  if in_bounds ms p.1 p.2 then set_cell g p.1 p.2 v else g.

(** The 3x3 block in the order the two loops visit it. *)
Definition block3 (x y : Z) : list (Z * Z) :=
  [(x + -1, y + -1); (x + 0, y + -1); (x + 1, y + -1);
   (x + -1, y + 0); (x + 0, y + 0); (x + 1, y + 0);
   (x + -1, y + 1); (x + 0, y + 1); (x + 1, y + 1)].

(** Number of cells of a tile array holding [t]. *)
Fixpoint count_row (t : cell) (row : list cell) : nat :=
  match row with
  | [] => O
  | c :: row' => ((if bool_decide (c = t) then 1 else 0) + count_row t row')%nat
  end.

Fixpoint count_grid (t : cell) (g : grid) : nat :=
  match g with
  | [] => O
  | row :: g' => (count_row t row + count_grid t g')%nat
  end.

(** The 4-connected region of [(x, y)] in [g0]: cells inside the map
    reachable from [(x, y)] through orthogonal neighbours whose value in
    [g0] equals the value of [(x, y)]. *)
Inductive fill_region (ms : MapSize) (g0 : grid) (x y : Z) : Z -> Z -> Prop :=
| region_start :
    in_bounds ms x y = true -> fill_region ms g0 x y x y
| region_step i j i' j' :
    fill_region ms g0 x y i j -> (i', j') ∈ neighbours i j ->
    in_bounds ms i' j' = true -> cell_at g0 i' j' = cell_at g0 x y ->
    fill_region ms g0 x y i' j'.

(** Every entry is a layer whose tile array has the map's dimensions. *)
Definition layers_wf (st : EditorState) : Prop :=
  Forall (fun e => exists l g, e = Some l /\ l.(tiles) = Some g /\ wf_grid st.(mapSize) g)
    st.(layers).

(** How one layer entry is rebuilt by a resize to [w] by [h] from a map of
    size [ms]. *)
Definition resized_entry (ms : MapSize) (w h : Z) (e e' : option JsLayer) : Prop :=
  exists l g g',
    e = Some l /\ l.(tiles) = Some g /\ e' = Some (update_layer l g') /\
    wf_grid (mkMapSize w h) g' /\
    forall x y, 0 <= x < w -> 0 <= y < h ->
      cell_at g' x y = if (x <? Z.min ms.(width) w) && (y <? Z.min ms.(height) h)
                       then cell_at g x y else None.

Definition tile_at_1_1_4x4 : grid :=
  <[1%nat := [None; Some "1,0,0"; None; None]]> (replicate 4 (replicate 4 None)).

(** A cell the loop would still fill. *)
Definition is_target (ms : MapSize) (targetValue : cell) (g : grid) (p : Z * Z) : Prop :=
  in_bounds ms p.1 p.2 = true /\ cell_at g p.1 p.2 = targetValue.

(** The loop invariant: the cells changed so far lie in the region and
    hold the replacement; every neighbour of a changed cell is still
    queued or no longer a target; the start cell likewise; and every
    queued cell is the start or a neighbour of a region cell. *)
Record fill_inv (ms : MapSize) (g0 : grid) (x y : Z) (replacementValue : cell)
    (g : grid) (queue : list (Z * Z)) : Prop := {
  inv_wf : wf_grid ms g;
  inv_changed : forall i j, in_bounds ms i j = true -> cell_at g i j <> cell_at g0 i j ->
    fill_region ms g0 x y i j /\ cell_at g i j = replacementValue;
  inv_closed : forall i j, in_bounds ms i j = true -> cell_at g i j <> cell_at g0 i j ->
    forall n, n ∈ neighbours i j -> n ∈ queue \/ ~ is_target ms (cell_at g0 x y) g n;
  inv_start : (x, y) ∈ queue \/ ~ is_target ms (cell_at g0 x y) g (x, y);
  inv_queue : forall p, p ∈ queue ->
    p = (x, y) \/ exists i j, fill_region ms g0 x y i j /\ p ∈ neighbours i j
}.

(** ** The tools of [canvasUtils.ts] ([applyTool], [setTile], [floodFill]) *)

(** The [DrawingTool] string literals of [shared/schema.ts]. *)
Definition drawing_tool_name (t : DrawingTool) : string :=
  match t with
  | SmallBrush => "smallBrush"
  | LargeBrush => "largeBrush"
  | Fill => "fill"
  | Eraser => "eraser"
  end.

(** [setTile(tiles, x, y, tilePosition, mapSize)]: nothing outside the
    map, otherwise the cell gets [null] or the tile's encoding. *)
Definition setTile (tiles : grid) (x y : Z) (tilePosition : option TilePosition)
    (ms : MapSize) : grid :=
  if negb (in_bounds ms x y) then tiles
  else match tilePosition with
       | None => set_cell tiles x y None
       | Some tp => set_cell tiles x y (Some (encode_tile tp))
       end.

(** The recursive [floodFill(tiles, x, y, targetValue, replacementValue,
    mapSize)].  [tiles] is mutated in place, so each of the four calls
    sees the array left by the previous one.  [fuel] is the depth of the
    call stack still available: a call made with none left overflows the
    stack ([None]). *)
Fixpoint floodFill (fuel : nat) (tiles : grid) (x y : Z) (targetValue : cell)
    (replacementValue : string) (ms : MapSize) : option grid :=
  match fuel with
  | O => None
  | S fuel' =>
      if negb (in_bounds ms x y) then Some tiles
      else if negb (bool_decide (cell_at tiles x y = targetValue)) then Some tiles
      else
        let tiles1 := set_cell tiles x y (Some replacementValue) in
        match floodFill fuel' tiles1 (x + 1) y targetValue replacementValue ms with
        | None => None
        | Some tiles2 =>
        match floodFill fuel' tiles2 (x - 1) y targetValue replacementValue ms with
        | None => None
        | Some tiles3 =>
        match floodFill fuel' tiles3 x (y + 1) targetValue replacementValue ms with
        | None => None
        | Some tiles4 => floodFill fuel' tiles4 x (y - 1) targetValue replacementValue ms
        end
        end
        end
  end.

(** [tiles[y]] as a row: [undefined] for an index outside the array. *)
Definition js_row (tiles : grid) (y : Z) : option (list cell) :=
  if y <? 0 then None else tiles !! Z.to_nat y.

(** The 3x3 loop of the [largeBrush] case of [applyTool]. *)
Definition applyTool_large (tiles : grid) (x y : Z) (tp : TilePosition) (ms : MapSize)
    : grid :=
  fold_left (fun tiles dy =>
    fold_left (fun tiles dx => setTile tiles (x + dx) (y + dy) (Some tp) ms)
      [-1; 0; 1] tiles)
    [-1; 0; 1] tiles.

(** [applyTool(state, x, y, tool)]; [fuel] is the stack depth available to
    [floodFill].  [newTiles[y][x]] is read at a row index outside the
    array only to throw; at a row inside it, its value matters only for
    coordinates inside the map, which [floodFill] checks first. *)
Definition applyTool (fuel : nat) (state : EditorState) (x y : Z) (tool : string)
    : option EditorState :=
  if negb (bool_decide (is_Some state.(selectedTile)))
     && negb (String.eqb tool "eraser") then Some state
  else
    let newLayers := state.(layers) in
    let index := state.(currentLayer) in
    match js_get newLayers index with
    | None => None
    | Some currentLayer =>
        match currentLayer.(tiles) with
        | None => None
        | Some newTiles =>
            let ms := state.(mapSize) in
            let result : option grid :=
              if String.eqb tool "smallBrush" then
                Some (match state.(selectedTile) with
                      | Some tp => setTile newTiles x y (Some tp) ms
                      | None => newTiles
                      end)
              else if String.eqb tool "largeBrush" then
                Some (match state.(selectedTile) with
                      | Some tp => applyTool_large newTiles x y tp ms
                      | None => newTiles
                      end)
              else if String.eqb tool "fill" then
                match state.(selectedTile) with
                | Some tp =>
                    match js_row newTiles y with
                    | None => None
                    | Some _ =>
                        floodFill fuel newTiles x y (cell_at newTiles x y)
                          (encode_tile tp) ms
                    end
                | None => Some newTiles
                end
              else if String.eqb tool "eraser" then Some (setTile newTiles x y None ms)
              else Some newTiles in
            match result with
            | None => None
            | Some newTiles' =>
                Some (with_layers state
                        (js_set newLayers index
                           (update_layer currentLayer newTiles')))
            end
        end
    end.

(** The cells of [g] holding [t] that are connected to [(x, y)] through
    orthogonal neighbours holding [t], inside the map. *)
Inductive t_reach (ms : MapSize) (g : grid) (t : cell) (x y : Z) : Z -> Z -> Prop :=
| treach_start :
    in_bounds ms x y = true -> cell_at g x y = t -> t_reach ms g t x y x y
| treach_step i j i' j' :
    t_reach ms g t x y i j -> (i', j') ∈ neighbours i j ->
    in_bounds ms i' j' = true -> cell_at g i' j' = t -> t_reach ms g t x y i' j'.

(** [g'] is [g] with the cells of [S] (inside the map) set to [v]. *)
Definition painted (ms : MapSize) (v : cell) (g : grid) (S : Z -> Z -> Prop) (g' : grid)
    : Prop :=
  forall i j, in_bounds ms i j = true ->
    (S i j /\ cell_at g' i j = v) \/ (~ S i j /\ cell_at g' i j = cell_at g i j).

(** Concrete states for the composed layer operations. *)

Definition layer_2x1_state : EditorState :=
  mkEditorState Grid 16 (mkMapSize 2 1) SmallBrush 0
    [Some (mkJsLayer (Some "a") (Some "Layer 1 (Base)") (Some true) (Some [[None; None]]))]
    None None (single_selection None) None 100.

Definition added_layer_state : EditorState :=
  with_layers_current layer_2x1_state
    (layer_2x1_state.(layers)
       ++ [Some (mkJsLayer (Some "b") (Some "Layer 2") (Some true) (Some [[None; None]]))]) 1.

(** [Canvas]'s zoom buttons. *)
Definition handleZoomIn (s : EditorState) : EditorState :=
  setZoomLevel (Z.min (s.(zoomLevel) + 25) 200) s.

Definition handleZoomOut (s : EditorState) : EditorState :=
  setZoomLevel (Z.max (s.(zoomLevel) - 25) 50) s.

(** The zoom levels the buttons reach from the initial 100. *)
Definition zoom_step_ok (z : Z) : Prop := 50 <= z <= 200 /\ z mod 25 = 0.

Definition painted_5x5 : grid := replicate 5 (replicate 5 (Some "1,2,3")).

(** ** Canvas drawing ([canvasUtils.ts]) *)

(** A [moveTo]/[lineTo] pair stroked by [drawGrid]. *)
Definition segment : Type := ((Z * Z) * (Z * Z))%type.

(** [for (let c = 0; c <= limit; c += step) { stroke(line(c)) }]; [fuel]
    bounds the number of iterations, [None] means it ran out. *)
Fixpoint stroke_loop (fuel : nat) (c limit step : Z) (line : Z -> segment)
    : option (list segment) :=
  match fuel with
  | O => None
  | S fuel' =>
      if c <=? limit then
        match stroke_loop fuel' (c + step) limit step line with
        | Some r => Some (line c :: r)
        | None => None
        end
      else Some []
  end.

(** The [mapType === 'grid'] branch of [drawGrid]: the segments stroked,
    vertical lines first.  (The hexagonal branch draws with [Math.cos] and
    [Math.sin] and is not modelled.) *)
Definition drawGrid_grid (fuel : nat) (width height tileSize : Z)
    : option (list segment) :=
  match stroke_loop fuel 0 width tileSize (fun x => ((x, 0), (x, height * tileSize))),
        stroke_loop fuel 0 height tileSize (fun y => ((0, y), (width * tileSize, y))) with
  | Some vs, Some hs => Some (vs ++ hs)
  | _, _ => None
  end.

(** One [ctx.drawImage] call; the image is named by the tileset id it was
    looked up with. *)
Record DrawImage := mkDrawImage {
  image_of : Z;
  sourceX : Q; sourceY : Q; sourceSize : Q;
  destX : Q; destY : Q; destSize : Q
}.

Definition drawTile (tilesetId tileX tileY x y : Z) (tileSize : Q) (mt : MapType)
    : DrawImage :=
  let d := mapToCanvasPosition x y tileSize mt in
  mkDrawImage tilesetId (inject_Z tileX * tileSize)%Q (inject_Z tileY * tileSize)%Q
    tileSize (fst d) (snd d) tileSize.

(** The body of [drawLayer]'s inner loop for one cell: [if (tile)] skips
    [null] and the empty string; [tilesets.get(tilesetId)] is [loaded].
    [None] when the cell does not decode to three integers, a case whose
    JS outcome this model does not track. *)
Definition draw_cell (loaded : Z -> bool) (tileSize : Q) (mt : MapType) (x y : Z)
    (c : cell) : option (list DrawImage) :=
  match c with
  | None | Some EmptyString => Some []
  | Some s =>
      match decode_tile s with
      | None => None
      | Some (tid, tx, ty) =>
          Some (if loaded tid then [drawTile tid tx ty x y tileSize mt] else [])
      end
  end.

Fixpoint draw_row (loaded : Z -> bool) (tileSize : Q) (mt : MapType) (x y : Z)
    (row : list cell) : option (list DrawImage) :=
  match row with
  | [] => Some []
  | c :: row' =>
      match draw_cell loaded tileSize mt x y c, draw_row loaded tileSize mt (x + 1) y row' with
      | Some a, Some b => Some (a ++ b)
      | _, _ => None
      end
  end.

Fixpoint draw_rows (loaded : Z -> bool) (tileSize : Q) (mt : MapType) (y : Z)
    (rows : grid) : option (list DrawImage) :=
  match rows with
  | [] => Some []
  | row :: rows' =>
      match draw_row loaded tileSize mt 0 y row, draw_rows loaded tileSize mt (y + 1) rows' with
      | Some a, Some b => Some (a ++ b)
      | _, _ => None
      end
  end.

(** [drawLayer]: [layer.tiles.length] throws when the layer has no tiles. *)
Definition drawLayer (loaded : Z -> bool) (l : JsLayer) (tileSize : Q) (mt : MapType)
    : option (list DrawImage) :=
  match l.(tiles) with
  | None => None
  | Some g => draw_rows loaded tileSize mt 0 g
  end.

(** [drawAllLayers] after its [clearRect]: [forEach] skips holes and draws
    the layers whose [visible] is truthy, bottom to top. *)
Fixpoint drawAllLayers (loaded : Z -> bool) (ls : list (option JsLayer)) (tileSize : Q)
    (mt : MapType) : option (list DrawImage) :=
  match ls with
  | [] => Some []
  | None :: ls' => drawAllLayers loaded ls' tileSize mt
  | Some l :: ls' =>
      if truthy l.(visible) then
        match drawLayer loaded l tileSize mt, drawAllLayers loaded ls' tileSize mt with
        | Some a, Some b => Some (a ++ b)
        | _, _ => None
        end
      else drawAllLayers loaded ls' tileSize mt
  end.

(** Every cell is empty or holds the encoding of a tile position. *)
Definition cells_encoded (g : grid) : Prop :=
  Forall (Forall (fun c => c = None \/ exists tp, c = Some (encode_tile tp))) g.


Definition sample_tiles : grid :=
  [[None; Some (encode_tile (mkTilePosition 1 2 3))];
   [Some (encode_tile (mkTilePosition 2 0 0)); None]].

Definition sample_layer : JsLayer :=
  mkJsLayer (Some "l1") (Some "Layer 1 (Base)") (Some true) (Some sample_tiles).

(** [d] is the call [drawLayer] makes for cell [c] at [(x, y)]. *)
Definition drawn_at (loaded : Z -> bool) (ts : Q) (mt : MapType) (x y : Z) (c : cell)
    (d : DrawImage) : Prop :=
  exists tp, c = Some (encode_tile tp) /\ loaded tp.(tilesetId) = true /\
    d = drawTile tp.(tilesetId) tp.(tile_x) tp.(tile_y) x y ts mt.

(** * Proofs *)

(** ** Tile encoding *)

Lemma string_to_uint_to_string (d : Decimal.uint) :
  string_to_uint (uint_to_string d) = Some d.
Proof. induction d; simpl; rewrite ?IHd; reflexivity. Qed.

Lemma Number_int_digits (d : Decimal.uint) :
  Number_int (uint_to_string d) = Some (Z.of_N (N.of_uint d)).
Proof. destruct d; simpl; rewrite ?string_to_uint_to_string; reflexivity. Qed.

Lemma Number_int_minus_digits (d : Decimal.uint) :
  d <> Decimal.Nil ->
  Number_int (String "-"%char (uint_to_string d)) = Some (- Z.of_N (N.of_uint d)).
Proof.
  intros Hd. unfold Number_int. cbn [Ascii.eqb Bool.eqb andb].
  destruct (uint_to_string d) as [|c r] eqn:E.
  - destruct d; simpl in E; congruence.
  - rewrite <- E, string_to_uint_to_string. reflexivity.
Qed.

Lemma Number_int_number_to_string (z : Z) :
  Number_int (number_to_string z) = Some z.
Proof.
  unfold number_to_string. destruct (z <? 0) eqn:Hz.
  - apply Z.ltb_lt in Hz. rewrite Number_int_minus_digits.
    + rewrite DecimalN.Unsigned.of_to. f_equal. lia.
    + intros E. pose proof (DecimalN.Unsigned.of_to (Z.to_N (- z))) as H.
      rewrite E in H. simpl in H. lia.
  - apply Z.ltb_ge in Hz. rewrite Number_int_digits, DecimalN.Unsigned.of_to.
    f_equal. lia.
Qed.

Lemma split_on_app (sep : ascii) (a b : string) :
  no_char sep a = true ->
  split_on sep (String.append a (String sep b)) = a :: split_on sep b.
Proof.
  induction a as [|c a IH]; simpl; intros H.
  - rewrite Ascii.eqb_refl. reflexivity.
  - apply andb_true_iff in H as [Hc Ha]. apply negb_true_iff in Hc.
    rewrite Hc, IH by exact Ha. reflexivity.
Qed.

Lemma split_on_single (sep : ascii) (a : string) :
  no_char sep a = true -> split_on sep a = [a].
Proof.
  induction a as [|c a IH]; simpl; intros H; [reflexivity|].
  apply andb_true_iff in H as [Hc Ha]. apply negb_true_iff in Hc.
  rewrite Hc, IH by exact Ha. reflexivity.
Qed.

Lemma no_comma_digits (d : Decimal.uint) : no_char ","%char (uint_to_string d) = true.
Proof. induction d; simpl; auto. Qed.

Lemma no_comma_number (z : Z) : no_char ","%char (number_to_string z) = true.
Proof.
  unfold number_to_string. destruct (z <? 0); simpl; apply no_comma_digits.
Qed.

(** C6: decoding ([drawLayer]'s split and [Number]) the comma-joined
    encoding of any tile position yields its three integers back. *)
Theorem decode_encode_tile (tp : TilePosition) :
  decode_tile (encode_tile tp) = Some (tp.(tilesetId), tp.(tile_x), tp.(tile_y)).
Proof.
  destruct tp as [a b c]. unfold decode_tile, encode_tile; simpl.
  rewrite split_on_app by apply no_comma_number.
  rewrite split_on_app by apply no_comma_number.
  rewrite split_on_single by apply no_comma_number. simpl.
  rewrite !Number_int_number_to_string. reflexivity.
Qed.

(** ** Coordinate transforms *)

Section GridTransform.
Local Open Scope Q_scope.

Lemma Qfloor_div_cell (c : Z) (p t : Q) :
  0 < t -> inject_Z c * t <= p -> p < inject_Z c * t + t ->
  Qfloor (p / t) = c.
Proof.
  intros Ht Hlo Hhi. apply Z.le_antisymm.
  - assert (Hlt : (Qfloor (p / t) < c + 1)%Z); [|lia].
    rewrite Zlt_Qlt. apply (Qle_lt_trans _ (p / t)); [apply Qfloor_le|].
    apply Qlt_shift_div_r; [exact Ht|].
    rewrite inject_Z_plus.
    assert (E : (inject_Z c + inject_Z 1) * t == inject_Z c * t + t) by ring.
    rewrite E. exact Hhi.
  - rewrite <- (Qfloor_Z c) at 1. apply Qfloor_resp_le.
    apply Qle_shift_div_l; assumption.
Qed.

(** C3: on a grid map with a positive tile size, [canvasToMapPosition]
    recovers the cell from its [mapToCanvasPosition] corner, and from every
    pixel point strictly inside the cell's square. *)
Theorem grid_canvas_roundtrip (col row ts : Z) (Hts : (0 < ts)%Z) :
  (let p := mapToCanvasPosition col row (inject_Z ts) Grid in
   canvasToMapPosition (fst p) (snd p) (inject_Z ts) Grid = (col, row)) /\
  (forall px py : Q,
     inject_Z col * inject_Z ts < px < inject_Z (col + 1) * inject_Z ts ->
     inject_Z row * inject_Z ts < py < inject_Z (row + 1) * inject_Z ts ->
     canvasToMapPosition px py (inject_Z ts) Grid = (col, row)).
Proof.
  assert (Ht : 0 < inject_Z ts) by (change 0 with (inject_Z 0); rewrite <- Zlt_Qlt; lia).
  assert (Hstep : forall c, inject_Z (c + 1) * inject_Z ts
                            == inject_Z c * inject_Z ts + inject_Z ts)
    by (intros c; rewrite inject_Z_plus; ring).
  split.
  - unfold mapToCanvasPosition, canvasToMapPosition; cbn [fst snd].
    f_equal; apply Qfloor_div_cell; try assumption; try apply Qle_refl;
      rewrite <- (Qplus_0_r (_ * _)) at 1; apply Qplus_lt_r; assumption.
  - intros px py [Hx1 Hx2] [Hy1 Hy2]. unfold canvasToMapPosition.
    f_equal; apply Qfloor_div_cell; try assumption;
      try (apply Qlt_le_weak; assumption); rewrite <- Hstep; assumption.
Qed.

Lemma grid_canvas_roundtrip_witness :
  (0 < 16)%Z /\
  canvasToMapPosition (inject_Z 3 * inject_Z 16 + (1 # 2)) (inject_Z 2 * inject_Z 16 + 15)
    (inject_Z 16) Grid = (3, 2)%Z.
Proof.
  split; [lia|].
  apply (proj2 (grid_canvas_roundtrip 3 2 16 ltac:(lia))); split; vm_compute; reflexivity.
Defined.

End GridTransform.

(** ** Layer list operations *)

Lemma js_get_Some_range {A} (a : list (option A)) (i : Z) (v : A) :
  js_get a i = Some v -> 0 <= i /\ (Z.to_nat i < length a)%nat.
Proof.
  unfold js_get. destruct (i <? 0) eqn:Hi; [discriminate|].
  apply Z.ltb_ge in Hi. intros H.
  destruct (a !! Z.to_nat i) eqn:E; [|discriminate].
  split; [lia|]. apply lookup_lt_Some in E. exact E.
Qed.

Lemma js_get_out_of_range {A} (a : list (option A)) (i : Z) :
  i < 0 \/ Z.of_nat (length a) <= i -> js_get a i = None.
Proof.
  unfold js_get. intros H. destruct (i <? 0) eqn:Hi; [reflexivity|].
  apply Z.ltb_ge in Hi. rewrite lookup_ge_None_2 by lia. reflexivity.
Qed.

Lemma js_set_length_in {A} (a : list (option A)) (i : Z) (v : A) :
  0 <= i -> (Z.to_nat i < length a)%nat -> length (js_set a i v) = length a.
Proof.
  intros H1 H2. unfold js_set. destruct (i <? 0) eqn:Hi; [lia|].
  destruct (Z.to_nat i <? length a)%nat eqn:Hl.
  - apply length_insert.
  - apply Nat.ltb_ge in Hl. lia.
Qed.

Lemma js_set_length_ge {A} (a : list (option A)) (i : Z) (v : A) :
  (length a <= length (js_set a i v))%nat.
Proof.
  unfold js_set. destruct (i <? 0); [lia|].
  destruct (Z.to_nat i <? length a)%nat.
  - rewrite length_insert. lia.
  - rewrite !length_app. lia.
Qed.

Lemma splice_start_le (len : nat) (index : Z) : (splice_start len index <= len)%nat.
Proof. unfold splice_start. destruct (index <? 0) eqn:H; lia. Qed.

Lemma splice1_length {A} (a : list A) (index : Z) :
  length (splice1 a index) =
  (if (splice_start (length a) index <? length a)%nat then length a - 1 else length a)%nat.
Proof.
  unfold splice1. pose proof (splice_start_le (length a) index).
  rewrite length_app, length_take, length_drop.
  destruct (splice_start (length a) index <? length a)%nat eqn:E;
    [apply Nat.ltb_lt in E | apply Nat.ltb_ge in E]; lia.
Qed.

Lemma removeLayer_valid (st : EditorState) (index : Z) :
  0 <= st.(currentLayer) -> (1 < length st.(layers))%nat ->
  valid_current (removeLayer index st).
Proof.
  intros Hc Hn. unfold removeLayer.
  destruct (length (layers st) <=? 1)%nat eqn:E; [apply Nat.leb_le in E; lia|]. unfold valid_current; simpl.
  pose proof (splice1_length (layers st) index) as L.
  destruct (splice_start (length (layers st)) index <? length (layers st))%nat;
  rewrite Z.geb_leb;
  destruct (Z.of_nat (length (splice1 (layers st) index)) <=? currentLayer st) eqn:C;
    [apply Z.leb_le in C | apply Z.leb_gt in C | apply Z.leb_le in C | apply Z.leb_gt in C];
    simpl; lia.
Qed.

(** C7 (amended): on a state with at most one layer [removeLayer] returns
    the state itself; with more than one layer and an index inside the
    list it removes exactly that layer, and when the active index was
    non-negative the new active index lies in [[0, newCount - 1]]. *)
Theorem removeLayer_clamps (st : EditorState) (index : Z) :
  ((length st.(layers) <= 1)%nat -> removeLayer index st = st) /\
  ((1 < length st.(layers))%nat -> 0 <= index < Z.of_nat (length st.(layers)) ->
   (removeLayer index st).(layers)
     = take (Z.to_nat index) st.(layers) ++ drop (S (Z.to_nat index)) st.(layers) /\
   length (removeLayer index st).(layers) = (length st.(layers) - 1)%nat /\
   (0 <= st.(currentLayer) -> valid_current (removeLayer index st))).
Proof.
  split.
  - intros H. unfold removeLayer. apply Nat.leb_le in H. rewrite H. reflexivity.
  - intros Hn Hi.
    assert (Hs : splice_start (length (layers st)) index = Z.to_nat index).
    { unfold splice_start. destruct (index <? 0) eqn:E; [apply Z.ltb_lt in E; lia|]. lia. }
    assert (Hl : layers (removeLayer index st)
                 = take (Z.to_nat index) (layers st) ++ drop (S (Z.to_nat index)) (layers st)).
    { unfold removeLayer. destruct (length (layers st) <=? 1)%nat eqn:E;
        [apply Nat.leb_le in E; lia|]. simpl. unfold splice1. rewrite Hs. reflexivity. }
    split; [exact Hl|]. split.
    + rewrite Hl, length_app, length_take, length_drop. lia.
    + intros Hc. apply removeLayer_valid; assumption.
Qed.

Lemma removeLayer_clamps_witness :
  (1 < length (two_layer_state 1).(layers))%nat /\
  valid_current (removeLayer 1 (two_layer_state 1)).
Proof.
  split; [simpl; lia|].
  apply (proj2 (proj2 (proj2 (removeLayer_clamps (two_layer_state 1) 1)
                 ltac:(simpl; lia) ltac:(simpl; lia)))).
  simpl; lia.
Defined.

(** C7 counterexample: from the initial state, add a layer and select
    index -1; removing layer 0 then leaves the active index at -1, outside
    [[0, newCount - 1]]. *)
Lemma removeLayer_keeps_negative_current :
  match initialState "l1" with
  | Some s0 =>
      let st := run [OpAddLayer "l2"; OpSetCurrentLayer (-1)] s0 in
      (1 < length st.(layers))%nat /\ ~ valid_current (removeLayer 0 st)
  | None => False
  end.
Proof. vm_compute. split; [lia|]. intros [H _]. apply H. reflexivity. Qed.

(** C8 (amended): the layer operations do not validate the index.  For an
    index outside [[0, count)], [toggleLayerVisibility] throws (no new state);
    [renameLayer] leaves the entries unchanged for a negative index and, for
    an index at or past the end, appends holes and an object carrying only
    the name at that position; [removeLayer] on more than one layer leaves
    the entries unchanged for an index at or past the end and, for a
    negative index, removes the entry at [max(count + index, 0)]. *)
Theorem layer_ops_unchecked_index (st : EditorState) (index : Z) (nm : string) :
  index < 0 \/ Z.of_nat (length st.(layers)) <= index ->
  toggleLayerVisibility index st = None /\
  (index < 0 -> (renameLayer index nm st).(layers) = st.(layers)) /\
  (Z.of_nat (length st.(layers)) <= index ->
   (renameLayer index nm st).(layers)
     = st.(layers) ++ replicate (Z.to_nat index - length st.(layers))%nat None
         ++ [Some (mkJsLayer None (Some nm) None None)]) /\
  ((1 < length st.(layers))%nat -> Z.of_nat (length st.(layers)) <= index ->
   (removeLayer index st).(layers) = st.(layers)) /\
  ((1 < length st.(layers))%nat -> index < 0 ->
   let k := Z.to_nat (Z.max (Z.of_nat (length st.(layers)) + index) 0) in
   (removeLayer index st).(layers) = take k st.(layers) ++ drop (S k) st.(layers)).
Proof.
  intros Hout.
  assert (Hg : js_get (layers st) index = None) by (apply js_get_out_of_range; exact Hout).
  split; [unfold toggleLayerVisibility; rewrite Hg; reflexivity|].
  split; [|split; [|split]].
  - intros Hneg. unfold renameLayer, js_set; simpl.
    destruct (index <? 0) eqn:E; [reflexivity|apply Z.ltb_ge in E; lia].
  - intros Hge. unfold renameLayer; rewrite Hg; simpl. unfold js_set.
    destruct (index <? 0) eqn:E; [apply Z.ltb_lt in E; lia|].
    destruct (Z.to_nat index <? length (layers st))%nat eqn:E2;
      [apply Nat.ltb_lt in E2; lia|reflexivity].
  - intros Hn Hge. unfold removeLayer.
    destruct (length (layers st) <=? 1)%nat eqn:E; [apply Nat.leb_le in E; lia|]. simpl.
    unfold splice1, splice_start.
    destruct (index <? 0) eqn:E2; [apply Z.ltb_lt in E2; lia|].
    rewrite Nat.min_r by lia. rewrite drop_ge by lia. rewrite take_ge by lia.
    apply app_nil_r.
  - intros Hn Hneg. unfold removeLayer.
    destruct (length (layers st) <=? 1)%nat eqn:E; [apply Nat.leb_le in E; lia|]. simpl.
    unfold splice1, splice_start.
    destruct (index <? 0) eqn:E2; [reflexivity|apply Z.ltb_ge in E2; lia].
Qed.

Lemma layer_ops_unchecked_index_witness :
  (-1 < 0 \/ Z.of_nat (length (two_layer_state 0).(layers)) <= -1) /\
  (removeLayer (-1) (two_layer_state 0)).(layers) = [Some empty_layer_5x5].
Proof.
  split; [left; lia|].
  pose proof (layer_ops_unchecked_index (two_layer_state 0) (-1) "x"
                ltac:(left; lia)) as [_ [_ [_ [_ H]]]].
  rewrite (H ltac:(simpl; lia) ltac:(lia)). reflexivity.
Defined.

(** C8 counterexample: on a one-layer state, renaming index 1 adds a second
    entry, and on a two-layer state removing index -1 drops the last layer;
    neither index exists, yet the layer list changes. *)
Lemma layer_index_errors_not_rejected :
  length (renameLayer 1 "x" (state_5x5 SmallBrush None)).(layers) = 2%nat /\
  length (removeLayer (-1) (two_layer_state 0)).(layers) = 1%nat.
Proof. split; reflexivity. Qed.

(** ** Validity of the active-layer index *)

Lemma resize_layers_length (w h : Z) (ls ls' : list (option JsLayer)) :
  resize_layers w h ls = Some ls' -> length ls' = length ls.
Proof.
  revert ls'. induction ls as [|[l|] ls IH]; simpl; intros ls' H.
  - injection H as <-. reflexivity.
  - destruct (resize_layer w h l); [|discriminate].
    destruct (resize_layers w h ls) as [r|] eqn:E; [|discriminate].
    injection H as <-. simpl. f_equal. apply IH. reflexivity.
  - destruct (resize_layers w h ls) as [r|] eqn:E; [|discriminate].
    injection H as <-. simpl. f_equal. apply IH. reflexivity.
Qed.

Lemma applyToolAtPosition_shape (x y : Z) (st st' : EditorState) :
  applyToolAtPosition x y st = Some st' ->
  st'.(currentLayer) = st.(currentLayer) /\ length st'.(layers) = length st.(layers).
Proof.
  unfold applyToolAtPosition.
  destruct (js_get (layers st) (currentLayer st)) as [cl|] eqn:G; [|discriminate].
  destruct (js_get_Some_range _ _ _ G) as [G1 G2].
  destruct (tiles cl) as [g|]; [|discriminate].
  intros Hr. cbv zeta in Hr. repeat case_match; try discriminate;
    injection Hr as <-; simpl; auto using js_set_length_in.
Qed.

Lemma createInitialEditorState_valid (mt : MapType) (ts w h : Z) (fid : string)
    (st : EditorState) :
  createInitialEditorState mt ts w h fid = Some st -> valid_current st.
Proof.
  unfold createInitialEditorState. destruct (createEmptyLayer w h _ fid); [|discriminate].
  intros H. injection H as <-. unfold valid_current; simpl. lia.
Qed.

Lemma exec_preserves_valid (op : EditorOp) (st st' : EditorState) :
  valid_current st -> op_respects op st = true -> exec op st = Some st' ->
  valid_current st'.
Proof.
  unfold valid_current. intros Hv Hop.
  destruct op; simpl; intros H.
  all: try (injection H as <-; simpl; exact Hv).
  - unfold setMapSize in H. destruct (resize_layers w h (layers st)) eqn:E; [|discriminate].
    injection H as <-. simpl. rewrite (resize_layers_length _ _ _ _ E). exact Hv.
  - exact (createInitialEditorState_valid _ _ _ _ _ _ H).
  - unfold addLayer in H. destruct (createEmptyLayer _ _ _ fresh_id); [|discriminate].
    injection H as <-. simpl. rewrite length_app. simpl. lia.
  - injection H as <-. destruct (length (layers st) <=? 1)%nat eqn:E.
    + unfold removeLayer. rewrite E. exact Hv.
    + apply Nat.leb_gt in E. apply removeLayer_valid; [lia|exact E].
  - injection H as <-. simpl in *. apply andb_true_iff in Hop as [Ha Hb].
    apply Z.leb_le in Ha. apply Z.ltb_lt in Hb. lia.
  - unfold toggleLayerVisibility in H.
    destruct (js_get (layers st) index) eqn:G; [|discriminate].
    destruct (js_get_Some_range _ _ _ G).
    injection H as <-. simpl. rewrite js_set_length_in by assumption. exact Hv.
  - injection H as <-. simpl. pose proof (js_set_length_ge (layers st) index
      (mkJsLayer (id (match js_get (layers st) index with Some l => l | None => empty_object end))
         (Some nm)
         (visible (match js_get (layers st) index with Some l => l | None => empty_object end))
         (tiles (match js_get (layers st) index with Some l => l | None => empty_object end)))).
    lia.
  - destruct (applyToolAtPosition_shape _ _ _ _ H) as [-> ->]. exact Hv.
Qed.

(** C9 (amended): starting from the initial state, the active-layer index
    stays a valid index of the layer list along every sequence of editor
    operations in which each [setCurrentLayer] receives an index valid at
    that moment; [setCurrentLayer] itself stores its argument unchecked. *)
Theorem current_layer_stays_valid (fid : string) (s0 : EditorState)
    (ops : list EditorOp) :
  initialState fid = Some s0 -> run_respects ops s0 = true ->
  valid_current (run ops s0).
Proof.
  intros H0. assert (Hv : valid_current s0)
    by exact (createInitialEditorState_valid _ _ _ _ _ _ H0).
  clear H0. revert s0 Hv. induction ops as [|op ops IH]; simpl; intros st Hv Hr.
  - exact Hv.
  - apply andb_true_iff in Hr as [Hop Hr]. apply IH; [|exact Hr].
    destruct (exec op st) eqn:E; [|exact Hv].
    exact (exec_preserves_valid _ _ _ Hv Hop E).
Qed.

Lemma current_layer_stays_valid_witness :
  match initialState "l1" with
  | Some s0 =>
      let ops := [OpAddLayer "l2"; OpSetCurrentLayer 0; OpRemoveLayer 0;
                  OpRenameLayer 3 "x"; OpToggleLayerVisibility 7] in
      run_respects ops s0 = true /\ valid_current (run ops s0)
  | None => False
  end.
Proof.
  destruct (initialState "l1") as [s0|] eqn:E; [|discriminate].
  split.
  - revert E. vm_compute. intros E. injection E as <-. reflexivity.
  - apply (current_layer_stays_valid "l1" s0); [exact E|].
    revert E. vm_compute. intros E. injection E as <-. reflexivity.
Defined.

(** C9 counterexample: from the initial state (one layer), [setCurrentLayer 1]
    makes the active index point past the end of the layer list. *)
Lemma setCurrentLayer_breaks_validity :
  match initialState "l1" with
  | Some s0 => ~ valid_current (run [OpSetCurrentLayer 1] s0)
  | None => False
  end.
Proof. vm_compute. intros [_ H]. discriminate H. Qed.

(** ** Tile array lemmas *)

Lemma in_bounds_spec (ms : MapSize) (x y : Z) :
  in_bounds ms x y = true <-> 0 <= x < ms.(width) /\ 0 <= y < ms.(height).
Proof.
  unfold in_bounds. rewrite !andb_true_iff, Z.leb_le, Z.leb_le, Z.ltb_lt, Z.ltb_lt.
  lia.
Qed.

Lemma wf_grid_row (ms : MapSize) (g : grid) (y : Z) :
  wf_grid ms g -> 0 <= y < ms.(height) ->
  exists row, g !! Z.to_nat y = Some row /\ length row = Z.to_nat ms.(width).
Proof.
  intros [Hl Hf] Hy.
  destruct (g !! Z.to_nat y) as [row|] eqn:E.
  - exists row. split; [reflexivity|]. rewrite Forall_lookup in Hf. exact (Hf _ _ E).
  - apply lookup_ge_None_1 in E. lia.
Qed.

Lemma set_cell_wf (ms : MapSize) (g : grid) (x y : Z) (v : cell) :
  wf_grid ms g -> wf_grid ms (set_cell g x y v).
Proof.
  intros [Hl Hf]. unfold set_cell. split; [rewrite length_alter; exact Hl|].
  rewrite Forall_lookup in Hf |- *. intros j row Hj.
  rewrite list_lookup_alter in Hj.
  destruct (decide (Z.to_nat y = j)) as [<-|Hne].
  - destruct (g !! Z.to_nat y) as [r|] eqn:E; simpl in Hj; [|discriminate].
    injection Hj as <-. rewrite length_insert. exact (Hf _ _ E).
  - exact (Hf _ _ Hj).
Qed.

Lemma cell_at_set_cell (ms : MapSize) (g : grid) (a b i j : Z) (v : cell) :
  wf_grid ms g -> in_bounds ms a b = true -> in_bounds ms i j = true ->
  cell_at (set_cell g a b v) i j = if (a =? i) && (b =? j) then v else cell_at g i j.
Proof.
  intros Hw Hab Hij. apply in_bounds_spec in Hab, Hij.
  destruct (wf_grid_row ms g j Hw ltac:(lia)) as [row [Hr Hlen]].
  unfold cell_at, set_cell.
  destruct (decide (b = j)) as [<-|Hne].
  - rewrite list_lookup_alter_eq, Hr. simpl. rewrite Z.eqb_refl, andb_true_r.
    destruct (decide (a = i)) as [<-|Hne'].
    + rewrite Z.eqb_refl, list_lookup_insert_eq by lia. reflexivity.
    + rewrite (proj2 (Z.eqb_neq a i) Hne'), list_lookup_insert_ne by lia. reflexivity.
  - rewrite list_lookup_alter_ne by lia.
    rewrite (proj2 (Z.eqb_neq b j) Hne), andb_false_r. reflexivity.
Qed.

Lemma js_set_same {A} (a : list (option A)) (i : Z) (v : A) :
  js_get a i = Some v -> js_set a i v = a.
Proof.
  intros H. destruct (js_get_Some_range _ _ _ H) as [H1 H2].
  unfold js_get in H. unfold js_set.
  destruct (i <? 0) eqn:E; [discriminate|].
  destruct (Z.to_nat i <? length a)%nat eqn:E2; [|apply Nat.ltb_ge in E2; lia].
  apply list_insert_id. destruct (a !! Z.to_nat i) as [[w|]|]; simpl in H; congruence.
Qed.

Lemma update_layer_same (l : JsLayer) (g : grid) :
  l.(tiles) = Some g -> update_layer l g = l.
Proof. destruct l; simpl; intros ->; reflexivity. Qed.

Lemma with_layers_same (st : EditorState) : with_layers st st.(layers) = st.
Proof. destruct st; reflexivity. Qed.

(** ** Paint tools without a selection *)

(** C10: with no selected tile, the small brush, the large brush and the
    fill tool leave the state as it was (the layer array is a fresh copy
    with the same contents), whatever the target cell. *)
Theorem brush_without_selection_is_noop (st st' : EditorState) (x y : Z) :
  st.(selectedTile) = None -> st.(selectedTool) <> Eraser ->
  applyToolAtPosition x y st = Some st' -> st' = st.
Proof.
  intros Hsel Htool. unfold applyToolAtPosition.
  destruct (js_get (layers st) (currentLayer st)) as [cl|] eqn:G; [|discriminate].
  destruct (tiles cl) as [g|] eqn:T; [|discriminate].
  cbv zeta. destruct (negb (in_bounds (mapSize st) x y)); [congruence|].
  rewrite Hsel.
  assert (Hc : with_layers st (js_set (layers st) (currentLayer st) (update_layer cl g)) = st).
  { rewrite update_layer_same by exact T. rewrite js_set_same by exact G.
    apply with_layers_same. }
  destruct (selectedTool st); [..|congruence]; intros H; injection H as <-; exact Hc.
Qed.

Lemma brush_without_selection_is_noop_witness :
  (state_5x5 Fill None).(selectedTile) = None /\
  (state_5x5 Fill None).(selectedTool) <> Eraser /\
  applyToolAtPosition 2 2 (state_5x5 Fill None) = Some (state_5x5 Fill None).
Proof.
  split; [reflexivity|]. split; [discriminate|].
  destruct (applyToolAtPosition 2 2 (state_5x5 Fill None)) as [st'|] eqn:E.
  - rewrite (brush_without_selection_is_noop (state_5x5 Fill None) st' 2 2
               eq_refl ltac:(discriminate) E). reflexivity.
  - vm_compute in E. discriminate E.
Defined.

(** ** Out-of-bounds targets and the large brush *)

Lemma large_brush_fold (ms : MapSize) (x y : Z) (v : cell) (g : grid) :
  large_brush ms x y v g = fold_left (write_if_in ms v) (block3 x y) g.
Proof. reflexivity. Qed.

Lemma fold_write_if_in (ms : MapSize) (v : cell) (ps : list (Z * Z)) :
  forall g, wf_grid ms g ->
  wf_grid ms (fold_left (write_if_in ms v) ps g) /\
  forall i j, in_bounds ms i j = true ->
    cell_at (fold_left (write_if_in ms v) ps g) i j
    = if bool_decide ((i, j) ∈ ps) then v else cell_at g i j.
Proof.
  induction ps as [|[a b] ps IH]; simpl; intros g Hw.
  - split; [exact Hw|]. intros i j _. rewrite ?bool_decide_false by set_solver. reflexivity.
  - assert (Hw' : wf_grid ms (write_if_in ms v g (a, b))).
    { unfold write_if_in; simpl. destruct (in_bounds ms a b); [apply set_cell_wf|]; exact Hw. }
    destruct (IH _ Hw') as [IHw IHc]. split; [exact IHw|].
    intros i j Hij. rewrite IHc by exact Hij.
    unfold write_if_in; simpl.
    destruct (bool_decide ((i, j) ∈ ps)) eqn:Ein.
    + apply bool_decide_eq_true in Ein.
      rewrite bool_decide_true by set_solver. reflexivity.
    + apply bool_decide_eq_false in Ein.
      destruct (decide ((a, b) = (i, j))) as [Heq|Hne].
      * injection Heq as <- <-. rewrite Hij, bool_decide_true by set_solver.
        rewrite cell_at_set_cell with (ms := ms) by assumption.
        rewrite !Z.eqb_refl. reflexivity.
      * rewrite bool_decide_false by set_solver.
        destruct (in_bounds ms a b) eqn:Hab; [|reflexivity].
        rewrite cell_at_set_cell with (ms := ms) by assumption.
        destruct (a =? i) eqn:E1; destruct (b =? j) eqn:E2; simpl; try reflexivity.
        apply Z.eqb_eq in E1, E2. subst. congruence.
Qed.

Lemma block3_membership (x y i j : Z) :
  bool_decide ((i, j) ∈ block3 x y) = (Z.abs (i - x) <=? 1) && (Z.abs (j - y) <=? 1).
Proof.
  apply eq_iff_eq_true. rewrite bool_decide_eq_true, andb_true_iff, !Z.leb_le.
  unfold block3. rewrite !elem_of_cons, elem_of_nil. split.
  - intros H. repeat destruct H as [H|H]; try contradiction; injection H as Hi Hj; subst; lia.
  - intros [Hi Hj].
    assert (Ei : i = x + -1 \/ i = x + 0 \/ i = x + 1) by lia.
    assert (Ej : j = y + -1 \/ j = y + 0 \/ j = y + 1) by lia.
    destruct Ei as [ -> | [ -> | -> ] ]; destruct Ej as [ -> | [ -> | -> ] ]; tauto.
Qed.

(** C5 (amended): when the active-layer entry is a layer with a tile
    array, every tool applied at a target outside the map returns the
    state unchanged; the large brush applied at a target inside the map
    writes the encoding exactly at the in-bounds cells of the 3x3 block
    around it and leaves every other cell as it was. *)
Theorem out_of_bounds_target_is_noop (st : EditorState) (cl : JsLayer) (g : grid) :
  js_get st.(layers) st.(currentLayer) = Some cl -> cl.(tiles) = Some g ->
  (forall x y, in_bounds st.(mapSize) x y = false ->
     applyToolAtPosition x y st = Some st) /\
  (forall x y tp,
     wf_grid st.(mapSize) g -> st.(selectedTool) = LargeBrush ->
     st.(selectedTile) = Some tp -> in_bounds st.(mapSize) x y = true ->
     exists g',
       applyToolAtPosition x y st
         = Some (with_layers st (js_set st.(layers) st.(currentLayer) (update_layer cl g'))) /\
       wf_grid st.(mapSize) g' /\
       forall i j, in_bounds st.(mapSize) i j = true ->
         cell_at g' i j = if (Z.abs (i - x) <=? 1) && (Z.abs (j - y) <=? 1)
                          then Some (encode_tile tp) else cell_at g i j).
Proof.
  intros G T. split.
  - intros x y Hout. unfold applyToolAtPosition. rewrite G, T, Hout. reflexivity.
  - intros x y tp Hw Htool Hsel Hin.
    exists (large_brush st.(mapSize) x y (Some (encode_tile tp)) g).
    rewrite large_brush_fold.
    destruct (fold_write_if_in st.(mapSize) (Some (encode_tile tp)) (block3 x y) g Hw)
      as [Hw' Hc].
    split; [|split; [exact Hw'|]].
    + unfold applyToolAtPosition. rewrite G, T, Hin, Htool, Hsel. reflexivity.
    + intros i j Hij. rewrite Hc by exact Hij. rewrite block3_membership. reflexivity.
Qed.

Lemma out_of_bounds_target_is_noop_witness :
  applyToolAtPosition 5 0 (state_5x5 LargeBrush (Some (mkTilePosition 1 0 0)))
    = Some (state_5x5 LargeBrush (Some (mkTilePosition 1 0 0))) /\
  exists g', applyToolAtPosition 0 0 (state_5x5 LargeBrush (Some (mkTilePosition 1 0 0)))
    = Some (with_layers (state_5x5 LargeBrush (Some (mkTilePosition 1 0 0)))
              (js_set [Some empty_layer_5x5] 0 (update_layer empty_layer_5x5 g'))).
Proof.
  destruct (out_of_bounds_target_is_noop (state_5x5 LargeBrush (Some (mkTilePosition 1 0 0)))
              empty_layer_5x5 (replicate 5 (replicate 5 None)) eq_refl eq_refl) as [H1 H2].
  split.
  - apply H1. reflexivity.
  - destruct (H2 0 0 (mkTilePosition 1 0 0)) as [g' [Hg _]].
    + split; [reflexivity|]. repeat constructor.
    + reflexivity.
    + reflexivity.
    + reflexivity.
    + exists g'. exact Hg.
Defined.

(** C5 counterexample: after [setCurrentLayer 1] on the initial one-layer
    state, applying a tool at the out-of-bounds cell (-1, 0) throws (the
    layer is read before the bounds check) instead of returning the
    state. *)
Lemma out_of_bounds_target_throws :
  match initialState "l1" with
  | Some s0 => applyToolAtPosition (-1) 0 (run [OpSetCurrentLayer 1] s0) = None
  | None => False
  end.
Proof. vm_compute. reflexivity. Qed.

(** ** Map resize *)

Lemma resize_tiles_wf (old : grid) (w h : Z) :
  wf_grid (mkMapSize w h) (resize_tiles old w h).
Proof.
  unfold resize_tiles. split; simpl.
  - rewrite length_map, length_seqZ. reflexivity.
  - apply Forall_forall. intros row Hrow. apply list_elem_of_In, in_map_iff in Hrow as [y [<- _]].
    rewrite length_map, length_seqZ. reflexivity.
Qed.

Lemma resize_tiles_cell (ms : MapSize) (old : grid) (w h x y : Z) :
  wf_grid ms old -> 0 <= x < w -> 0 <= y < h ->
  cell_at (resize_tiles old w h) x y
  = if (x <? Z.min ms.(width) w) && (y <? Z.min ms.(height) h)
    then cell_at old x y else None.
Proof.
  intros [Hl Hf] Hx Hy. unfold cell_at at 1, resize_tiles.
  rewrite list_lookup_fmap, lookup_seqZ_lt by lia. simpl.
  rewrite list_lookup_fmap, lookup_seqZ_lt by lia. simpl.
  replace (0 + Z.of_nat (Z.to_nat y)) with y by lia.
  replace (0 + Z.of_nat (Z.to_nat x)) with x by lia.
  destruct (y <? Z.min (height ms) h) eqn:Ey.
  - apply Z.ltb_lt in Ey.
    assert (Hy' : (Z.to_nat y <? length old)%nat = true) by (apply Nat.ltb_lt; lia).
    rewrite Hy'. simpl.
    destruct old as [|row0 rows]; [simpl in Hl; lia|].
    inversion Hf as [|? ? Hr0 _]; subst. rewrite Hr0.
    destruct (x <? Z.min (width ms) w) eqn:Ex.
    + apply Z.ltb_lt in Ex. rewrite (proj2 (Nat.ltb_lt _ _)) by lia. reflexivity.
    + apply Z.ltb_ge in Ex. rewrite (proj2 (Nat.ltb_ge _ _)) by lia. reflexivity.
  - apply Z.ltb_ge in Ey.
    rewrite (proj2 (Nat.ltb_ge _ _)) by lia. rewrite andb_false_r. reflexivity.
Qed.


Lemma resize_layers_spec (ms : MapSize) (w h : Z) (ls : list (option JsLayer)) :
  0 <= w -> 0 <= h ->
  Forall (fun e => exists l g, e = Some l /\ l.(tiles) = Some g /\ wf_grid ms g) ls ->
  exists ls', resize_layers w h ls = Some ls' /\ Forall2 (resized_entry ms w h) ls ls'.
Proof.
  intros Hw Hh. induction ls as [|e ls IH]; intros Hf.
  - exists []. split; [reflexivity|constructor].
  - inversion Hf as [|? ? [l [g [-> [Hg Hwf]]]] Hrest]; subst.
    destruct (IH Hrest) as [ls' [Hr Hall]].
    exists (Some (update_layer l (resize_tiles g w h)) :: ls'). split.
    + simpl. unfold resize_layer. rewrite Hg.
      rewrite (proj2 (Z.ltb_ge h 0)) by lia.
      rewrite (proj2 (Z.ltb_ge w 0)) by lia. rewrite andb_false_r, Hr. reflexivity.
    + constructor; [|exact Hall].
      exists l, g, (resize_tiles g w h). split; [reflexivity|]. split; [exact Hg|].
      split; [reflexivity|]. split; [apply resize_tiles_wf|].
      intros x y Hx Hy. apply resize_tiles_cell; assumption.
Qed.

(** C4: resizing a map whose layers all have the map's dimensions to a
    non-negative [w] by [h] sets the map size and rebuilds every layer
    together: each new tile array is [h] rows of [w] cells, a cell inside
    both the old and the new size keeps its value and every other cell is
    empty. *)
Theorem setMapSize_resizes_all_layers (st : EditorState) (w h : Z) :
  0 <= w -> 0 <= h -> layers_wf st ->
  exists st',
    setMapSize w h st = Some st' /\
    st'.(mapSize) = mkMapSize w h /\
    st'.(currentLayer) = st.(currentLayer) /\
    Forall2 (resized_entry st.(mapSize) w h) st.(layers) st'.(layers).
Proof.
  intros Hw Hh Hwf.
  destruct (resize_layers_spec st.(mapSize) w h st.(layers) Hw Hh Hwf) as [ls' [Hr Hall]].
  eexists. split; [unfold setMapSize; rewrite Hr; reflexivity|].
  simpl. split; [reflexivity|]. split; [reflexivity|exact Hall].
Qed.


Lemma setMapSize_resizes_all_layers_witness :
  exists st', setMapSize 2 2
    (mkEditorState Grid 16 (mkMapSize 4 4) SmallBrush 0
       [Some (mkJsLayer (Some "l1") (Some "Layer 1") (Some true) (Some tile_at_1_1_4x4))]
       None None (single_selection None) None 100) = Some st'.
Proof.
  destruct (setMapSize_resizes_all_layers
    (mkEditorState Grid 16 (mkMapSize 4 4) SmallBrush 0
       [Some (mkJsLayer (Some "l1") (Some "Layer 1") (Some true) (Some tile_at_1_1_4x4))]
       None None (single_selection None) None 100) 2 2 ltac:(lia) ltac:(lia))
    as [st' [H _]].
  - repeat constructor. eexists _, _. split; [reflexivity|]. split; [reflexivity|].
    split; [reflexivity|]. repeat constructor.
  - exists st'. exact H.
Defined.

(** ** Termination of the flood fill *)

Lemma count_row_insert (t r : cell) (row : list cell) (i : nat) :
  row !! i = Some t -> r <> t -> S (count_row t (<[i := r]> row)) = count_row t row.
Proof.
  revert i. induction row as [|c row IH]; intros i Hi Hr; [discriminate|].
  destruct i as [|i]; simpl in *.
  - injection Hi as ->. rewrite bool_decide_false by exact Hr.
    rewrite bool_decide_true by reflexivity. lia.
  - rewrite <- (IH i Hi Hr). lia.
Qed.

Lemma count_row_le (t : cell) (row : list cell) : (count_row t row <= length row)%nat.
Proof. induction row as [|c row IH]; simpl; [lia|]. case_bool_decide; lia. Qed.

Lemma count_grid_le (ms : MapSize) (t : cell) (g : grid) :
  wf_grid ms g -> (count_grid t g <= Z.to_nat ms.(width) * Z.to_nat ms.(height))%nat.
Proof.
  intros [Hl Hf]. rewrite <- Hl. clear Hl. induction g as [|row g IH]; simpl; [lia|].
  inversion Hf as [|? ? Hr Hg]; subst. specialize (IH Hg).
  pose proof (count_row_le t row). rewrite Hr in *. lia.
Qed.

Lemma count_grid_set (ms : MapSize) (t r : cell) (g : grid) (x y : Z) :
  wf_grid ms g -> in_bounds ms x y = true -> cell_at g x y = t -> r <> t ->
  S (count_grid t (set_cell g x y r)) = count_grid t g.
Proof.
  intros Hw Hin Hc Hr. apply in_bounds_spec in Hin.
  destruct (wf_grid_row ms g y Hw ltac:(lia)) as [row [Hrow Hlen]].
  assert (Hi : row !! Z.to_nat x = Some t).
  { unfold cell_at in Hc. rewrite Hrow in Hc.
    destruct (row !! Z.to_nat x) eqn:E; [congruence|].
    apply lookup_ge_None_1 in E. lia. }
  unfold set_cell. clear Hw Hc Hlen. revert Hrow.
  generalize (Z.to_nat y) as j. induction g as [|row' g IH]; intros j Hrow; [discriminate|].
  destruct j as [|j]; simpl in *.
  - injection Hrow as ->. rewrite <- (count_row_insert t r row _ Hi Hr). lia.
  - specialize (IH j Hrow). unfold alter in IH. lia.
Qed.

Section FillTermination.
Variables (ms : MapSize) (targetValue replacementValue : cell).
Hypothesis Hdiff : replacementValue <> targetValue.

Lemma fill_loop_terminates (fuel : nat) :
  forall (g : grid) (queue : list (Z * Z)),
  wf_grid ms g ->
  (4 * count_grid targetValue g + length queue <= fuel)%nat ->
  exists g', fill_loop fuel ms targetValue replacementValue g queue = Some g' /\
             wf_grid ms g'.
Proof.
  induction fuel as [|fuel IH]; intros g queue Hw Hf.
  - destruct queue as [|p q]; simpl in *; [exists g; split; [reflexivity|exact Hw]|lia].
  - destruct queue as [|[cx cy] q]; simpl in *; [exists g; split; [reflexivity|exact Hw]|].
    destruct (in_bounds ms cx cy) eqn:Hin; simpl; [|apply IH; [exact Hw|lia]].
    case_bool_decide as Hc; simpl; [|apply IH; [exact Hw|lia]].
    apply IH; [apply set_cell_wf; exact Hw|].
    pose proof (count_grid_set ms targetValue replacementValue g cx cy Hw Hin Hc Hdiff).
    rewrite length_app. simpl. lia.
Qed.

End FillTermination.

(** C2: the flood fill terminates within a bound fixed by the map size:
    on any tile array of the map's dimensions, with a replacement value
    different from the target value, the loop started from any cell
    finishes within [4 * width * height + 1] iterations (every iteration
    pops one queue entry, and a cell is filled, pushing four entries, at
    most once since the fill removes a target-valued cell); so the fill
    tool always completes on a well-formed layer. *)
Theorem fill_terminates (ms : MapSize) (g : grid) (targetValue replacementValue : cell)
    (x y : Z) (fuel : nat) :
  wf_grid ms g -> replacementValue <> targetValue -> (fill_fuel ms <= fuel)%nat ->
  exists g', fill_loop fuel ms targetValue replacementValue g [(x, y)] = Some g' /\
             wf_grid ms g'.
Proof.
  intros Hw Hd Hf. apply fill_loop_terminates; [exact Hd|exact Hw|].
  pose proof (count_grid_le ms targetValue g Hw). unfold fill_fuel in Hf. simpl. lia.
Qed.

Lemma fill_terminates_witness :
  exists g', fill_loop (fill_fuel (mkMapSize 300 300)) (mkMapSize 300 300) None
               (Some "1,2,3") (replicate 300 (replicate 300 None)) [(150, 150)] = Some g'.
Proof.
  destruct (fill_terminates (mkMapSize 300 300) (replicate 300 (replicate 300 None))
              None (Some "1,2,3") 150 150 (fill_fuel (mkMapSize 300 300)))
    as [g' [H _]].
  - split; [rewrite length_replicate; reflexivity|].
    apply Forall_replicate. rewrite length_replicate. reflexivity.
  - discriminate.
  - lia.
  - exists g'. exact H.
Defined.

(** ** Correctness of the flood fill *)

Section FillCorrectness.
Variables (ms : MapSize) (g0 : grid) (x y : Z) (replacementValue : cell).
Local Abbreviation targetValue := (cell_at g0 x y).
Local Abbreviation is_target := (is_target ms targetValue).
Local Abbreviation fill_inv := (fill_inv ms g0 x y replacementValue).
Hypothesis Hdiff : replacementValue <> targetValue.


Lemma fill_region_target (i j : Z) :
  fill_region ms g0 x y i j -> in_bounds ms i j = true /\ cell_at g0 i j = targetValue.
Proof. induction 1; split; auto. Qed.

Lemma is_target_set (g : grid) (a b : Z) (n : Z * Z) :
  wf_grid ms g -> in_bounds ms a b = true ->
  is_target (set_cell g a b replacementValue) n -> is_target g n.
Proof.
  intros Hw Hab [Hn Hc]. split; [exact Hn|].
  rewrite (cell_at_set_cell ms g a b n.1 n.2) in Hc by assumption.
  destruct ((a =? n.1) && (b =? n.2)); [congruence|exact Hc].
Qed.

Lemma fill_inv_start : wf_grid ms g0 -> fill_inv g0 [(x, y)].
Proof.
  intros Hw. split.
  - exact Hw.
  - intros i j _ H. congruence.
  - intros i j _ H. congruence.
  - left. set_solver.
  - intros p Hp. left. set_solver.
Qed.

Lemma fill_inv_skip (g : grid) (p : Z * Z) (rest : list (Z * Z)) :
  fill_inv g (p :: rest) -> ~ is_target g p -> fill_inv g rest.
Proof.
  intros [Hw Hch Hcl Hst Hq] Hp. split.
  - exact Hw.
  - exact Hch.
  - intros i j Hij Hne n Hn. destruct (Hcl i j Hij Hne n Hn) as [Hin|Hnt]; [|tauto].
    apply elem_of_cons in Hin as [->|Hin]; tauto.
  - destruct Hst as [Hin|Hnt]; [|tauto].
    apply elem_of_cons in Hin as [<-|Hin]; tauto.
  - intros q Hqr. apply Hq. set_solver.
Qed.

Lemma fill_inv_fill (g : grid) (cx cy : Z) (rest : list (Z * Z)) :
  fill_inv g ((cx, cy) :: rest) -> is_target g (cx, cy) ->
  fill_inv (set_cell g cx cy replacementValue) (rest ++ neighbours cx cy).
Proof.
  intros [Hw Hch Hcl Hst Hq] [Hin Hc]. simpl in Hin, Hc.
  (* the filled cell belongs to the region *)
  assert (Hreg : fill_region ms g0 x y cx cy).
  { assert (Hg0 : cell_at g0 cx cy = targetValue).
    { destruct (decide (cell_at g cx cy = cell_at g0 cx cy)) as [E|E]; [congruence|].
      destruct (Hch cx cy Hin E) as [_ Hr]. congruence. }
    destruct (Hq (cx, cy) ltac:(set_solver)) as [E|[i [j [Hr Hn]]]].
    - injection E as -> ->. apply region_start. exact Hin.
    - eapply region_step; eassumption. }
  assert (Hcell : forall i j, in_bounds ms i j = true ->
            cell_at (set_cell g cx cy replacementValue) i j
            = if (cx =? i) && (cy =? j) then replacementValue else cell_at g i j)
    by (intros i j Hij; apply (cell_at_set_cell ms); assumption).
  assert (Hnt : ~ is_target (set_cell g cx cy replacementValue) (cx, cy)).
  { intros [_ H]. simpl in H. rewrite Hcell in H by exact Hin.
    rewrite !Z.eqb_refl in H. simpl in H. congruence. }
  split.
  - apply set_cell_wf. exact Hw.
  - intros i j Hij Hne. rewrite Hcell in Hne |- * by exact Hij.
    destruct ((cx =? i) && (cy =? j)) eqn:E.
    + apply andb_true_iff in E as [E1 E2]. apply Z.eqb_eq in E1, E2. subst.
      split; [exact Hreg|reflexivity].
    + exact (Hch i j Hij Hne).
  - intros i j Hij Hne n Hn. rewrite Hcell in Hne by exact Hij.
    destruct ((cx =? i) && (cy =? j)) eqn:E.
    + apply andb_true_iff in E as [E1 E2]. apply Z.eqb_eq in E1, E2. subst.
      left. set_solver.
    + destruct (Hcl i j Hij Hne n Hn) as [Hin'|Hnt'].
      * apply elem_of_cons in Hin' as [->|Hin']; [right; exact Hnt|left; set_solver].
      * right. intros H. apply Hnt'. exact (is_target_set g cx cy n Hw Hin H).
  - destruct Hst as [Hin'|Hnt'].
    + apply elem_of_cons in Hin' as [E|Hin'].
      * right. rewrite E. exact Hnt.
      * left. set_solver.
    + right. intros H. apply Hnt'. exact (is_target_set g cx cy (x, y) Hw Hin H).
  - intros p Hp. apply elem_of_app in Hp as [Hp|Hp].
    + apply Hq. set_solver.
    + right. exists cx, cy. split; assumption.
Qed.

Lemma fill_loop_inv (fuel : nat) :
  forall (g g' : grid) (queue : list (Z * Z)),
  fill_inv g queue ->
  fill_loop fuel ms targetValue replacementValue g queue = Some g' ->
  fill_inv g' [].
Proof.
  induction fuel as [|fuel IH]; intros g g' queue Hinv Hrun.
  - destruct queue as [|[]]; simpl in Hrun; [injection Hrun as <-; exact Hinv|discriminate].
  - destruct queue as [|[cx cy] rest]; simpl in Hrun; [injection Hrun as <-; exact Hinv|].
    destruct (in_bounds ms cx cy) eqn:Hin; simpl in Hrun.
    + case_bool_decide as Hc; simpl in Hrun.
      * exact (IH _ _ _ (fill_inv_fill g cx cy rest Hinv (conj Hin Hc)) Hrun).
      * apply (IH _ _ _ (fill_inv_skip g (cx, cy) rest Hinv ltac:(intros [_ H]; exact (Hc H))) Hrun).
    + apply (IH _ _ _ (fill_inv_skip g (cx, cy) rest Hinv
                        ltac:(intros [H _]; simpl in H; congruence)) Hrun).
Qed.

Lemma fill_inv_final (g : grid) :
  fill_inv g [] ->
  forall i j, in_bounds ms i j = true ->
    (fill_region ms g0 x y i j -> cell_at g i j = replacementValue) /\
    (~ fill_region ms g0 x y i j -> cell_at g i j = cell_at g0 i j).
Proof.
  intros [Hw Hch Hcl Hst Hq] i j Hij. split.
  - intros Hr. induction Hr as [Hxy|i j i' j' Hr IHr Hn Hb Hv].
    + destruct Hst as [Hin|Hnt]; [set_solver|].
      destruct (decide (cell_at g x y = cell_at g0 x y)) as [E|E].
      * exfalso. apply Hnt. split; [exact Hxy|exact E].
      * exact (proj2 (Hch x y Hxy E)).
    + destruct (fill_region_target i j Hr) as [Hbij Hg0].
      specialize (IHr Hbij).
      assert (Hne : cell_at g i j <> cell_at g0 i j) by (rewrite IHr, Hg0; exact Hdiff).
      destruct (Hcl i j Hbij Hne (i', j') Hn) as [Hin|Hnt]; [set_solver|].
      destruct (decide (cell_at g i' j' = cell_at g0 i' j')) as [E|E].
      * exfalso. apply Hnt. split; [exact Hb|]. simpl. rewrite E. exact Hv.
      * exact (proj2 (Hch i' j' Hb E)).
  - intros Hnr. destruct (decide (cell_at g i j = cell_at g0 i j)) as [E|E]; [exact E|].
    exfalso. exact (Hnr (proj1 (Hch i j Hij E))).
Qed.

End FillCorrectness.

Lemma fill_loop_region (ms : MapSize) (g0 : grid) (x y : Z) (r : cell) (g' : grid)
    (fuel : nat) :
  wf_grid ms g0 -> r <> cell_at g0 x y ->
  fill_loop fuel ms (cell_at g0 x y) r g0 [(x, y)] = Some g' ->
  forall i j, in_bounds ms i j = true ->
    (fill_region ms g0 x y i j -> cell_at g' i j = r) /\
    (~ fill_region ms g0 x y i j -> cell_at g' i j = cell_at g0 i j).
Proof.
  intros Hw Hd Hrun.
  eapply fill_inv_final; [exact Hd|].
  eapply fill_loop_inv; [exact Hd| |exact Hrun].
  eapply fill_inv_start; [exact Hd|exact Hw].
Qed.

(** C1: with the fill tool and a selected tile, applied inside the map on a
    well-formed current layer: if the target cell already holds the
    selected tile's encoding the state is returned as it was; otherwise
    the current layer is replaced by a well-formed grid in which the cells
    of the 4-connected region of the target (cells reachable through
    orthogonal neighbours holding the target's original value) hold the
    encoding and every other cell is unchanged.  On an all-empty 5x5
    layer, fill at (2,2) with tile (1,2,3) paints all 25 cells, and
    repeating it returns the same state. *)
Theorem fill_tool_paints_region :
  (forall (st : EditorState) (cl : JsLayer) (g : grid) (tp : TilePosition) (x y : Z),
    st.(selectedTool) = Fill -> st.(selectedTile) = Some tp ->
    js_get st.(layers) st.(currentLayer) = Some cl -> cl.(tiles) = Some g ->
    wf_grid st.(mapSize) g -> in_bounds st.(mapSize) x y = true ->
    (cell_at g x y = Some (encode_tile tp) -> applyToolAtPosition x y st = Some st) /\
    (cell_at g x y <> Some (encode_tile tp) ->
     exists g',
       applyToolAtPosition x y st
       = Some (with_layers st (js_set st.(layers) st.(currentLayer) (update_layer cl g'))) /\
       wf_grid st.(mapSize) g' /\
       forall i j, in_bounds st.(mapSize) i j = true ->
         (fill_region st.(mapSize) g x y i j -> cell_at g' i j = Some (encode_tile tp)) /\
         (~ fill_region st.(mapSize) g x y i j -> cell_at g' i j = cell_at g i j))) /\
  (exists st1,
     applyToolAtPosition 2 2 (state_5x5 Fill (Some (mkTilePosition 1 2 3))) = Some st1 /\
     layer_tiles st1 0 = Some (replicate 5 (replicate 5 (Some "1,2,3"))) /\
     applyToolAtPosition 2 2 st1 = Some st1).
Proof.
  split.
  - intros st cl g tp x y Htool Htile Hget Htiles Hw Hib.
    unfold applyToolAtPosition. rewrite Hget, Htiles, Hib, Htool, Htile. cbn [negb].
    split.
    + intros Heq. rewrite bool_decide_eq_true_2 by exact Heq. reflexivity.
    + intros Hne. rewrite bool_decide_eq_false_2 by exact Hne.
      destruct (fill_loop_terminates st.(mapSize) (cell_at g x y) (Some (encode_tile tp))
                  (not_eq_sym Hne) (fill_fuel st.(mapSize)) g [(x, y)] Hw)
        as [g' [Hrun Hw']].
      { pose proof (count_grid_le st.(mapSize) (cell_at g x y) g Hw).
        unfold fill_fuel. simpl. lia. }
      rewrite Hrun. exists g'. split; [reflexivity|]. split; [exact Hw'|].
      exact (fill_loop_region st.(mapSize) g x y _ g' _ Hw (not_eq_sym Hne) Hrun).
  - eexists. split; [vm_compute; reflexivity|]. split; vm_compute; reflexivity.
Qed.

Lemma fill_tool_paints_region_witness :
  exists g',
    applyToolAtPosition 0 0 (state_5x5 Fill (Some (mkTilePosition 1 2 3)))
    = Some (with_layers (state_5x5 Fill (Some (mkTilePosition 1 2 3)))
              [Some (update_layer empty_layer_5x5 g')]) /\
    wf_grid (mkMapSize 5 5) g'.
Proof.
  destruct (proj2 (proj1 fill_tool_paints_region
                      (state_5x5 Fill (Some (mkTilePosition 1 2 3))) empty_layer_5x5
                      (replicate 5 (replicate 5 None)) (mkTilePosition 1 2 3) 0 0
                      eq_refl eq_refl eq_refl eq_refl
                      ltac:(split; [reflexivity|repeat constructor]) eq_refl)
              ltac:(vm_compute; discriminate))
    as [g' [Happ [Hw _]]].
  exists g'. split; [exact Happ|exact Hw].
Defined.


(** ** The recursive flood fill of [canvasUtils.ts] *)

Lemma set_cell_same (ms : MapSize) (g : grid) (x y : Z) (v : cell) :
  wf_grid ms g -> in_bounds ms x y = true -> cell_at g x y = v -> set_cell g x y v = g.
Proof.
  intros Hw Hin Hc. apply in_bounds_spec in Hin.
  destruct (wf_grid_row ms g y Hw ltac:(lia)) as [row [Hr Hlen]].
  assert (Hx : row !! Z.to_nat x = Some v).
  { unfold cell_at in Hc. rewrite Hr in Hc.
    destruct (row !! Z.to_nat x) eqn:E; [congruence|].
    apply lookup_ge_None in E. lia. }
  unfold set_cell. transitivity (alter (fun r : list cell => r) (Z.to_nat y) g).
  - apply list_alter_ext; [|reflexivity].
    intros row' Hr'. rewrite Hr in Hr'. injection Hr' as <-. apply list_insert_id. exact Hx.
  - apply list_alter_id. reflexivity.
Qed.

Lemma neighbours_sym (i j i' j' : Z) :
  (i', j') ∈ neighbours i j -> (i, j) ∈ neighbours i' j'.
Proof.
  unfold neighbours. rewrite !elem_of_cons, elem_of_nil.
  intros [E|[E|[E|[E|[]]]]]; injection E as -> ->;
    repeat (first [left; f_equal; lia | right]).
Qed.

Lemma t_reach_origin (ms : MapSize) (g : grid) (t : cell) (x y i j : Z) :
  t_reach ms g t x y i j -> in_bounds ms x y = true /\ cell_at g x y = t.
Proof. induction 1; auto. Qed.

Lemma t_reach_end (ms : MapSize) (g : grid) (t : cell) (x y i j : Z) :
  t_reach ms g t x y i j -> in_bounds ms i j = true /\ cell_at g i j = t.
Proof. induction 1; auto. Qed.

Lemma t_reach_trans (ms : MapSize) (g : grid) (t : cell) (x y i j k l : Z) :
  t_reach ms g t x y i j -> t_reach ms g t i j k l -> t_reach ms g t x y k l.
Proof.
  intros H1 H2. induction H2 as [|a b a' b' _ IH Hn Hb Hv]; [exact H1|].
  eapply treach_step; eassumption.
Qed.

(** The region of the queue-based fill is the connected set of cells
    holding the start cell's value. *)
Lemma fill_region_t_reach (ms : MapSize) (g : grid) (x y i j : Z) :
  fill_region ms g x y i j <-> t_reach ms g (cell_at g x y) x y i j.
Proof.
  split.
  - induction 1 as [Hin|a b a' b' _ IH Hn Hb Hv].
    + apply treach_start; [exact Hin|reflexivity].
    + eapply treach_step; eassumption.
  - induction 1 as [Hin _|a b a' b' _ IH Hn Hb Hv].
    + apply region_start. exact Hin.
    + eapply region_step; eassumption.
Qed.

Lemma painted_ext (ms : MapSize) (v : cell) (g g' : grid) (A B : Z -> Z -> Prop) :
  (forall i j, in_bounds ms i j = true -> A i j <-> B i j) ->
  painted ms v g A g' -> painted ms v g B g'.
Proof.
  intros E H i j Hij. specialize (E i j Hij).
  destruct (H i j Hij) as [[Ha Hc]|[Ha Hc]]; [left|right]; split; try tauto.
Qed.

Lemma painted_trans (ms : MapSize) (v : cell) (g g1 g2 : grid) (A B : Z -> Z -> Prop) :
  painted ms v g A g1 -> painted ms v g1 B g2 ->
  painted ms v g (fun i j => A i j \/ B i j) g2.
Proof.
  intros H1 H2 i j Hij.
  destruct (H1 i j Hij) as [[Ha Hc]|[Ha Hc]], (H2 i j Hij) as [[Hb Hd]|[Hb Hd]].
  - left. split; [tauto|exact Hd].
  - left. split; [tauto|congruence].
  - left. split; [tauto|exact Hd].
  - right. split; [tauto|congruence].
Qed.

Lemma painted_point (ms : MapSize) (v : cell) (g : grid) (x y : Z) :
  wf_grid ms g -> in_bounds ms x y = true ->
  painted ms v g (fun i j => i = x /\ j = y) (set_cell g x y v).
Proof.
  intros Hw Hxy i j Hij. rewrite (cell_at_set_cell ms g x y i j v Hw Hxy Hij).
  destruct (Z.eqb_spec x i), (Z.eqb_spec y j); simpl.
  - left. split; [split; congruence|reflexivity].
  - right. split; [intros [_ E]; congruence|reflexivity].
  - right. split; [intros [E _]; congruence|reflexivity].
  - right. split; [intros [E _]; congruence|reflexivity].
Qed.

Section FloodFillRec.
Variables (ms : MapSize) (t : cell) (r : string).
Hypothesis Hdiff : Some r <> t.

(** Painting with [r] only removes cells holding [t]. *)
Lemma t_reach_painted_mono (g g' : grid) (A : Z -> Z -> Prop) (m n i j : Z) :
  painted ms (Some r) g A g' -> t_reach ms g' t m n i j -> t_reach ms g t m n i j.
Proof.
  intros Hp H. induction H as [Hin Hc|a b a' b' _ IH Hn Hb Hv].
  - apply treach_start; [exact Hin|].
    destruct (Hp m n Hin) as [[_ E]|[_ E]]; congruence.
  - eapply treach_step; [exact IH|exact Hn|exact Hb|].
    destruct (Hp a' b' Hb) as [[_ E]|[_ E]]; congruence.
Qed.

(** A path of [g] either meets the painted component or survives the
    painting. *)
Lemma t_reach_painted_split (g g' : grid) (n1 n2 m1 m2 i j : Z) :
  painted ms (Some r) g (t_reach ms g t n1 n2) g' ->
  t_reach ms g t m1 m2 i j -> t_reach ms g t n1 n2 i j \/ t_reach ms g' t m1 m2 i j.
Proof.
  intros Hp H. induction H as [Hin Hc|a b a' b' Hab IH Hn Hb Hv].
  - destruct (Hp m1 m2 Hin) as [[Hr _]|[_ E]]; [left; exact Hr|].
    right. apply treach_start; congruence.
  - destruct (Hp a' b' Hb) as [[Hr _]|[_ E]]; [left; exact Hr|].
    destruct IH as [IH|IH].
    + left. eapply treach_step; eassumption.
    + right. eapply treach_step; [exact IH|exact Hn|exact Hb|congruence].
Qed.

(** A path from the filled cell leaves it through one of its neighbours. *)
Lemma t_reach_last (g : grid) (x y i j : Z) :
  wf_grid ms g -> in_bounds ms x y = true ->
  t_reach ms g t x y i j ->
  (i = x /\ j = y) \/
  exists a b, (a, b) ∈ neighbours x y /\ t_reach ms (set_cell g x y (Some r)) t a b i j.
Proof.
  intros Hw Hxy H. induction H as [Hin Hc|a b a' b' Hab IH Hn Hb Hv].
  - left. split; reflexivity.
  - destruct (decide (a' = x /\ b' = y)) as [E|E]; [left; exact E|].
    assert (Hv' : cell_at (set_cell g x y (Some r)) a' b' = t).
    { rewrite (cell_at_set_cell ms g x y a' b' _ Hw Hxy Hb).
      destruct (Z.eqb_spec x a'), (Z.eqb_spec y b'); simpl; try exact Hv.
      exfalso. apply E. split; congruence. }
    right. destruct IH as [[-> ->]|[c [d [Hcd IH]]]].
    + exists a', b'. split; [exact Hn|]. apply treach_start; assumption.
    + exists c, d. split; [exact Hcd|]. eapply treach_step; eassumption.
Qed.

Lemma floodFill_paints (fuel : nat) :
  forall (g : grid) (x y : Z),
  wf_grid ms g -> (count_grid t g < fuel)%nat ->
  exists g', floodFill fuel g x y t r ms = Some g' /\ wf_grid ms g' /\
    (count_grid t g' <= count_grid t g)%nat /\
    painted ms (Some r) g (t_reach ms g t x y) g'.
Proof.
  induction fuel as [|f IH]; intros g x y Hw Hf; [lia|].
  simpl. destruct (in_bounds ms x y) eqn:Hxy; simpl.
  2:{ exists g. split; [reflexivity|]. split; [exact Hw|]. split; [lia|].
      intros i j _. right. split; [|reflexivity].
      intros H. destruct (t_reach_origin _ _ _ _ _ _ _ H). congruence. }
  case_bool_decide as Hc; simpl.
  2:{ exists g. split; [reflexivity|]. split; [exact Hw|]. split; [lia|].
      intros i j _. right. split; [|reflexivity].
      intros H. destruct (t_reach_origin _ _ _ _ _ _ _ H). tauto. }
  set (g1 := set_cell g x y (Some r)).
  assert (Hw1 : wf_grid ms g1) by (apply set_cell_wf; exact Hw).
  assert (Hc1 : S (count_grid t g1) = count_grid t g)
    by (apply (count_grid_set ms); assumption).
  assert (P1 : painted ms (Some r) g (fun i j => i = x /\ j = y) g1)
    by (apply painted_point; assumption).
  destruct (IH g1 (x + 1) y Hw1 ltac:(lia)) as [g2 [E2 [Hw2 [Hc2 P2]]]].
  rewrite E2.
  destruct (IH g2 (x - 1) y Hw2 ltac:(lia)) as [g3 [E3 [Hw3 [Hc3 P3]]]].
  rewrite E3.
  destruct (IH g3 x (y + 1) Hw3 ltac:(lia)) as [g4 [E4 [Hw4 [Hc4 P4]]]].
  rewrite E4.
  destruct (IH g4 x (y - 1) Hw4 ltac:(lia)) as [g5 [E5 [Hw5 [Hc5 P5]]]].
  exists g5. split; [exact E5|]. split; [exact Hw5|]. split; [lia|].
  pose proof (painted_trans _ _ _ _ _ _ _ P1 P2) as Q2.
  pose proof (painted_trans _ _ _ _ _ _ _ Q2 P3) as Q3.
  pose proof (painted_trans _ _ _ _ _ _ _ Q3 P4) as Q4.
  pose proof (painted_trans _ _ _ _ _ _ _ Q4 P5) as Q5.
  eapply painted_ext; [|exact Q5].
  assert (Hstart : t_reach ms g t x y x y) by (apply treach_start; assumption).
  (* a component of a neighbour, in a later grid, lies in the component
     of the start cell *)
  assert (Hnb : forall (h : grid) (A : Z -> Z -> Prop) a b i j,
             painted ms (Some r) g A h -> (a, b) ∈ neighbours x y ->
             t_reach ms h t a b i j -> t_reach ms g t x y i j).
  { intros h A a b i j HA Hn H.
    apply (t_reach_painted_mono g h A) in H; [|exact HA].
    destruct (t_reach_origin _ _ _ _ _ _ _ H) as [Hb Hv].
    apply (t_reach_trans _ _ _ _ _ a b); [|exact H].
    eapply treach_step; eassumption. }
  assert (N1 : (x + 1, y) ∈ neighbours x y) by (unfold neighbours; set_solver).
  assert (N2 : (x - 1, y) ∈ neighbours x y) by (unfold neighbours; set_solver).
  assert (N3 : (x, y + 1) ∈ neighbours x y) by (unfold neighbours; set_solver).
  assert (N4 : (x, y - 1) ∈ neighbours x y) by (unfold neighbours; set_solver).
  intros i j Hij. split.
  - intros [[[[[-> ->]|H]|H]|H]|H].
    + exact Hstart.
    + exact (Hnb g1 _ _ _ i j P1 N1 H).
    + exact (Hnb g2 _ _ _ i j Q2 N2 H).
    + exact (Hnb g3 _ _ _ i j Q3 N3 H).
    + exact (Hnb g4 _ _ _ i j Q4 N4 H).
  - intros H. destruct (t_reach_last g x y i j Hw Hxy H) as [E|[a [b [Hn H1]]]].
    + left; left; left; left; exact E.
    + fold g1 in H1. unfold neighbours in Hn.
      rewrite !elem_of_cons, elem_of_nil in Hn.
      destruct Hn as [E|[E|[E|[E|[]]]]]; injection E as -> ->.
      * left; left; left; right; exact H1.
      * destruct (t_reach_painted_split g1 g2 _ _ _ _ i j P2 H1) as [H2|H2]; tauto.
      * destruct (t_reach_painted_split g1 g2 _ _ _ _ i j P2 H1) as [H2|H2]; [tauto|].
        destruct (t_reach_painted_split g2 g3 _ _ _ _ i j P3 H2) as [H3|H3]; tauto.
      * destruct (t_reach_painted_split g1 g2 _ _ _ _ i j P2 H1) as [H2|H2]; [tauto|].
        destruct (t_reach_painted_split g2 g3 _ _ _ _ i j P3 H2) as [H3|H3]; [tauto|].
        destruct (t_reach_painted_split g3 g4 _ _ _ _ i j P4 H3) as [H4|H4]; tauto.
Qed.

End FloodFillRec.

(** X1: the recursive [floodFill] of [canvasUtils.ts], started at [(x, y)]
    with the cell's own value as target and a different replacement, sets
    exactly the 4-connected region of [(x, y)] to the replacement and keeps
    every other cell, provided the call stack holds one frame more than
    the number of cells holding the target value. *)
Theorem floodFill_paints_region (ms : MapSize) (g : grid) (x y : Z) (r : string)
    (fuel : nat) :
  wf_grid ms g -> Some r <> cell_at g x y ->
  (count_grid (cell_at g x y) g < fuel)%nat ->
  exists g', floodFill fuel g x y (cell_at g x y) r ms = Some g' /\ wf_grid ms g' /\
    forall i j, in_bounds ms i j = true ->
      (fill_region ms g x y i j -> cell_at g' i j = Some r) /\
      (~ fill_region ms g x y i j -> cell_at g' i j = cell_at g i j).
Proof.
  intros Hw Hd Hf.
  destruct (floodFill_paints ms (cell_at g x y) r Hd fuel g x y Hw Hf)
    as [g' [E [Hw' [_ P]]]].
  exists g'. split; [exact E|]. split; [exact Hw'|].
  intros i j Hij. rewrite fill_region_t_reach.
  destruct (P i j Hij) as [[H1 H2]|[H1 H2]]; split; tauto.
Qed.

Lemma floodFill_paints_region_witness :
  exists g', floodFill 26 (replicate 5 (replicate 5 None)) 2 2 None "1,2,3"
               (mkMapSize 5 5) = Some g'.
Proof.
  destruct (floodFill_paints_region (mkMapSize 5 5) (replicate 5 (replicate 5 None))
              2 2 "1,2,3" 26 ltac:(split; [reflexivity|repeat constructor])
              ltac:(vm_compute; discriminate) ltac:(vm_compute; lia))
    as [g' [E _]].
  exists g'. exact E.
Defined.

(** ** Repainting with the recursive flood fill *)

Section FloodFillSame.
Variables (ms : MapSize) (r : string).

(** When the target is the replacement, a call that returns leaves the
    array as it was. *)
Lemma floodFill_same_id (fuel : nat) :
  forall (g g' : grid) (x y : Z),
  wf_grid ms g -> floodFill fuel g x y (Some r) r ms = Some g' -> g' = g.
Proof.
  induction fuel as [|f IH]; intros g g' x y Hw H; [discriminate|].
  simpl in H. destruct (in_bounds ms x y) eqn:Hxy; simpl in H; [|congruence].
  case_bool_decide as Hc; simpl in H; [|congruence].
  rewrite (set_cell_same ms g x y (Some r) Hw Hxy Hc) in H.
  destruct (floodFill f g (x + 1) y (Some r) r ms) as [g2|] eqn:E2; [|discriminate].
  apply IH in E2; [subst g2|exact Hw].
  destruct (floodFill f g (x - 1) y (Some r) r ms) as [g3|] eqn:E3; [|discriminate].
  apply IH in E3; [subst g3|exact Hw].
  destruct (floodFill f g x (y + 1) (Some r) r ms) as [g4|] eqn:E4; [|discriminate].
  apply IH in E4; [subst g4|exact Hw].
  exact (IH _ _ _ _ Hw H).
Qed.

(** Two neighbouring cells holding the replacement call each other until
    the stack is exhausted. *)
Lemma floodFill_same_overflow (fuel : nat) :
  forall (g : grid) (x y a b : Z),
  wf_grid ms g -> in_bounds ms x y = true -> cell_at g x y = Some r ->
  (a, b) ∈ neighbours x y -> in_bounds ms a b = true -> cell_at g a b = Some r ->
  floodFill fuel g x y (Some r) r ms = None.
Proof.
  induction fuel as [|f IH]; intros g x y a b Hw Hxy Hc Hn Hab Hcab; [reflexivity|].
  simpl. rewrite Hxy. simpl. rewrite bool_decide_true by exact Hc. simpl.
  rewrite (set_cell_same ms g x y (Some r) Hw Hxy Hc).
  assert (Hback : (x, y) ∈ neighbours a b) by (apply neighbours_sym; exact Hn).
  assert (Hrec : floodFill f g a b (Some r) r ms = None)
    by exact (IH g a b x y Hw Hab Hcab Hback Hxy Hc).
  unfold neighbours in Hn. rewrite !elem_of_cons, elem_of_nil in Hn.
  destruct Hn as [E|[E|[E|[E|[]]]]]; injection E as -> ->.
  - rewrite Hrec. reflexivity.
  - destruct (floodFill f g (x + 1) y (Some r) r ms) as [g2|] eqn:E2; [|reflexivity].
    apply floodFill_same_id in E2; [subst g2|exact Hw]. rewrite Hrec. reflexivity.
  - destruct (floodFill f g (x + 1) y (Some r) r ms) as [g2|] eqn:E2; [|reflexivity].
    apply floodFill_same_id in E2; [subst g2|exact Hw].
    destruct (floodFill f g (x - 1) y (Some r) r ms) as [g3|] eqn:E3; [|reflexivity].
    apply floodFill_same_id in E3; [subst g3|exact Hw]. rewrite Hrec. reflexivity.
  - destruct (floodFill f g (x + 1) y (Some r) r ms) as [g2|] eqn:E2; [|reflexivity].
    apply floodFill_same_id in E2; [subst g2|exact Hw].
    destruct (floodFill f g (x - 1) y (Some r) r ms) as [g3|] eqn:E3; [|reflexivity].
    apply floodFill_same_id in E3; [subst g3|exact Hw].
    destruct (floodFill f g x (y + 1) (Some r) r ms) as [g4|] eqn:E4; [|reflexivity].
    apply floodFill_same_id in E4; [subst g4|exact Hw]. exact Hrec.
Qed.

End FloodFillSame.

Lemma js_row_in (ms : MapSize) (g : grid) (y : Z) :
  wf_grid ms g -> 0 <= y < ms.(height) -> exists row, js_row g y = Some row.
Proof.
  intros Hw Hy. destruct (wf_grid_row ms g y Hw Hy) as [row [Hr _]].
  exists row. unfold js_row. destruct (Z.ltb_spec y 0); [lia|exact Hr].
Qed.

(** X2: [applyTool] with the fill tool on a cell that already holds the
    selected tile's encoding, next to another cell holding it, never
    returns: whatever the stack depth, the recursion overflows it (the
    queue-based [applyToolAtPosition] returns the state instead). *)
Theorem applyTool_fill_repaint_overflows (fuel : nat) (st : EditorState) (cl : JsLayer)
    (g : grid) (tp : TilePosition) (x y a b : Z) :
  st.(selectedTile) = Some tp ->
  js_get st.(layers) st.(currentLayer) = Some cl -> cl.(tiles) = Some g ->
  wf_grid st.(mapSize) g ->
  in_bounds st.(mapSize) x y = true -> cell_at g x y = Some (encode_tile tp) ->
  (a, b) ∈ neighbours x y -> in_bounds st.(mapSize) a b = true ->
  cell_at g a b = Some (encode_tile tp) ->
  applyTool fuel st x y "fill" = None.
Proof.
  intros Htile Hget Htiles Hw Hxy Hc Hn Hab Hcab.
  unfold applyTool. rewrite Htile. simpl. rewrite Hget, Htiles.
  destruct (js_row_in st.(mapSize) g y Hw ltac:(apply in_bounds_spec in Hxy; lia))
    as [row Hrow].
  simpl. rewrite Hrow, Hc.
  rewrite (floodFill_same_overflow st.(mapSize) (encode_tile tp) fuel g x y a b
             Hw Hxy Hc Hn Hab Hcab).
  reflexivity.
Qed.

Lemma applyTool_fill_repaint_overflows_witness :
  applyTool 1000
    (mkEditorState Grid 16 (mkMapSize 5 5) Fill 0
       [Some (update_layer empty_layer_5x5 painted_5x5)] None
       (Some (mkTilePosition 1 2 3)) (single_selection (Some (mkTilePosition 1 2 3)))
       None 100) 2 2 "fill" = None.
Proof.
  apply (applyTool_fill_repaint_overflows 1000 _ (update_layer empty_layer_5x5 painted_5x5)
           painted_5x5 (mkTilePosition 1 2 3) 2 2 3 2);
    try reflexivity.
  - split; [reflexivity|repeat constructor].
  - unfold neighbours. set_solver.
Defined.

(** ** [applyTool] against [applyToolAtPosition] *)

Lemma grid_ext (ms : MapSize) (g1 g2 : grid) :
  wf_grid ms g1 -> wf_grid ms g2 ->
  (forall i j, in_bounds ms i j = true -> cell_at g1 i j = cell_at g2 i j) -> g1 = g2.
Proof.
  intros [Hl1 Hf1] [Hl2 Hf2] H. apply list_eq. intros k.
  destruct (decide (k < Z.to_nat ms.(height))%nat) as [Hk|Hk].
  - destruct (lookup_lt_is_Some_2 g1 k ltac:(lia)) as [r1 E1].
    destruct (lookup_lt_is_Some_2 g2 k ltac:(lia)) as [r2 E2].
    rewrite E1, E2. f_equal.
    rewrite Forall_lookup in Hf1, Hf2.
    pose proof (Hf1 _ _ E1) as L1. pose proof (Hf2 _ _ E2) as L2.
    apply list_eq. intros m.
    destruct (decide (m < Z.to_nat ms.(width))%nat) as [Hm|Hm].
    + specialize (H (Z.of_nat m) (Z.of_nat k) ltac:(apply in_bounds_spec; lia)).
      unfold cell_at in H. rewrite !Nat2Z.id, E1, E2 in H.
      destruct (lookup_lt_is_Some_2 r1 m ltac:(lia)) as [c1 C1].
      destruct (lookup_lt_is_Some_2 r2 m ltac:(lia)) as [c2 C2].
      rewrite C1, C2 in H |- *. congruence.
    + rewrite !lookup_ge_None_2 by lia. reflexivity.
  - rewrite !lookup_ge_None_2 by lia. reflexivity.
Qed.

Lemma setTile_some (g : grid) (x y : Z) (tp : TilePosition) (ms : MapSize) :
  setTile g x y (Some tp) ms
  = if in_bounds ms x y then set_cell g x y (Some (encode_tile tp)) else g.
Proof. unfold setTile. destruct (in_bounds ms x y); reflexivity. Qed.

Lemma applyTool_large_brush (g : grid) (x y : Z) (tp : TilePosition) (ms : MapSize) :
  applyTool_large g x y tp ms = large_brush ms x y (Some (encode_tile tp)) g.
Proof. unfold applyTool_large, large_brush. simpl. rewrite !setTile_some. reflexivity. Qed.

Lemma commit_same (st : EditorState) (cl : JsLayer) (g : grid) :
  js_get st.(layers) st.(currentLayer) = Some cl -> cl.(tiles) = Some g ->
  with_layers st (js_set st.(layers) st.(currentLayer) (update_layer cl g)) = st.
Proof.
  intros Hget Htiles. rewrite (update_layer_same cl g Htiles), (js_set_same _ _ _ Hget).
  apply with_layers_same.
Qed.

(** X3: inside the map, on a well-formed current layer, the unused
    [applyTool(state, x, y, state.selectedTool)] of [canvasUtils.ts] gives
    the same state as the context's [applyToolAtPosition(x, y)] for every
    tool, with or without a selected tile, provided that a fill whose
    target differs from the selected tile gets one stack frame more than
    there are target cells, and that the fill target does not already
    hold the selected tile. *)
Theorem applyTool_agrees_in_bounds (fuel : nat) (st : EditorState) (cl : JsLayer)
    (g : grid) (x y : Z) :
  js_get st.(layers) st.(currentLayer) = Some cl -> cl.(tiles) = Some g ->
  wf_grid st.(mapSize) g -> in_bounds st.(mapSize) x y = true ->
  (forall tp, st.(selectedTool) = Fill -> st.(selectedTile) = Some tp ->
     cell_at g x y <> Some (encode_tile tp) /\ (count_grid (cell_at g x y) g < fuel)%nat) ->
  applyTool fuel st x y (drawing_tool_name st.(selectedTool)) = applyToolAtPosition x y st.
Proof.
  intros Hget Htiles Hw Hxy Hfill.
  unfold applyTool, applyToolAtPosition. rewrite Hget, Htiles, Hxy.
  destruct st.(selectedTool) eqn:Htool, st.(selectedTile) as [tp|] eqn:Htile;
    cbn [negb drawing_tool_name]; simpl.
  - unfold setTile. rewrite Hxy. reflexivity.
  - f_equal. symmetry. exact (commit_same st cl g Hget Htiles).
  - rewrite applyTool_large_brush. reflexivity.
  - f_equal. symmetry. exact (commit_same st cl g Hget Htiles).
  - destruct (Hfill tp eq_refl eq_refl) as [Hne Hf].
    destruct (js_row_in st.(mapSize) g y Hw ltac:(apply in_bounds_spec in Hxy; lia))
      as [row Hrow].
    rewrite Hrow, bool_decide_false by exact Hne.
    destruct (floodFill_paints st.(mapSize) (cell_at g x y) (encode_tile tp)
                (not_eq_sym Hne) fuel g x y Hw Hf) as [g1 [E1 [Hw1 [_ P1]]]].
    destruct (fill_loop_terminates st.(mapSize) (cell_at g x y) (Some (encode_tile tp))
                (not_eq_sym Hne) (fill_fuel st.(mapSize)) g [(x, y)] Hw)
      as [g2 [E2 Hw2]].
    { pose proof (count_grid_le st.(mapSize) (cell_at g x y) g Hw).
      unfold fill_fuel. simpl. lia. }
    rewrite E1, E2. replace g1 with g2; [reflexivity|symmetry].
    apply (grid_ext st.(mapSize) g1 g2 Hw1 Hw2).
    intros i j Hij.
    pose proof (fill_loop_region st.(mapSize) g x y _ g2 _ Hw (not_eq_sym Hne) E2 i j Hij)
      as [P2a P2b].
    destruct (P1 i j Hij) as [[R C]|[R C]];
      rewrite <- (fill_region_t_reach st.(mapSize) g x y i j) in R.
    + rewrite C, P2a by exact R. reflexivity.
    + rewrite C, P2b by exact R. reflexivity.
  - f_equal. symmetry. exact (commit_same st cl g Hget Htiles).
  - unfold setTile. rewrite Hxy. reflexivity.
  - unfold setTile. rewrite Hxy. reflexivity.
Qed.

Lemma applyTool_agrees_in_bounds_witness :
  applyTool 26 (state_5x5 Fill (Some (mkTilePosition 1 2 3))) 2 2 "fill"
  = applyToolAtPosition 2 2 (state_5x5 Fill (Some (mkTilePosition 1 2 3))).
Proof.
  apply (applyTool_agrees_in_bounds 26 (state_5x5 Fill (Some (mkTilePosition 1 2 3)))
           empty_layer_5x5 (replicate 5 (replicate 5 None)) 2 2); try reflexivity.
  - split; [reflexivity|repeat constructor].
  - intros tp _ H. injection H as <-. split; [vm_compute; discriminate|vm_compute; lia].
Defined.

Lemma js_row_none (ms : MapSize) (g : grid) (y : Z) :
  wf_grid ms g -> (js_row g y = None <-> ~ (0 <= y < ms.(height))).
Proof.
  intros [Hl Hf]. unfold js_row. destruct (Z.ltb_spec y 0) as [Hy|Hy].
  - split; [lia|reflexivity].
  - rewrite lookup_ge_None. lia.
Qed.

(** X4: outside the map, [applyTool] leaves the state as it was for every
    tool string but the large brush and the fill tool; the fill tool throws
    exactly when a tile is selected and [y] names no row ([newTiles[y][x]]
    on [undefined]), and otherwise also leaves the state (a call stack of
    one frame is enough). *)
Theorem applyTool_outside_map (fuel : nat) (st : EditorState) (cl : JsLayer) (g : grid)
    (x y : Z) :
  js_get st.(layers) st.(currentLayer) = Some cl -> cl.(tiles) = Some g ->
  wf_grid st.(mapSize) g -> in_bounds st.(mapSize) x y = false -> (0 < fuel)%nat ->
  (forall tool, tool <> "largeBrush" -> tool <> "fill" ->
     applyTool fuel st x y tool = Some st) /\
  (applyTool fuel st x y "fill" = None <->
     st.(selectedTile) <> None /\ ~ (0 <= y < st.(mapSize).(height))) /\
  (applyTool fuel st x y "fill" <> None -> applyTool fuel st x y "fill" = Some st).
Proof.
  intros Hget Htiles Hw Hout Hf.
  assert (Hset : forall tp, setTile g x y tp st.(mapSize) = g)
    by (intros tp; unfold setTile; rewrite Hout; reflexivity).
  assert (Hcommit := commit_same st cl g Hget Htiles).
  assert (Hfill : applyTool fuel st x y "fill"
                  = match st.(selectedTile) with
                    | Some _ => match js_row g y with Some _ => Some st | None => None end
                    | None => Some st
                    end).
  { unfold applyTool. destruct st.(selectedTile) as [tp|] eqn:Htile; simpl; [|reflexivity].
    rewrite Hget, Htiles. simpl.
    destruct (js_row g y); [|reflexivity].
    destruct fuel as [|f]; [lia|]. simpl. rewrite Hout. simpl. rewrite Hcommit. reflexivity. }
  split; [|split].
  - intros tool Hl Hfl. unfold applyTool.
    destruct (negb (bool_decide (is_Some st.(selectedTile))) && negb (String.eqb tool "eraser"));
      [reflexivity|].
    rewrite Hget, Htiles.
    destruct (String.eqb_spec tool "smallBrush");
      [destruct st.(selectedTile); rewrite ?Hset; rewrite Hcommit; reflexivity|].
    destruct (String.eqb_spec tool "largeBrush"); [contradiction|].
    destruct (String.eqb_spec tool "fill"); [contradiction|].
    destruct (String.eqb_spec tool "eraser"); rewrite ?Hset; rewrite Hcommit; reflexivity.
  - rewrite Hfill, <- (js_row_none st.(mapSize) g y Hw).
    destruct st.(selectedTile) as [tp|], (js_row g y) as [row|]; split.
    + discriminate.
    + intros [_ H]. discriminate.
    + intros _. split; [discriminate|reflexivity].
    + reflexivity.
    + discriminate.
    + intros [H _]. exfalso. apply H. reflexivity.
    + discriminate.
    + intros [H _]. exfalso. apply H. reflexivity.
  - rewrite Hfill. destruct st.(selectedTile), (js_row g y); tauto.
Qed.

Lemma applyTool_outside_map_witness :
  applyTool 1 (state_5x5 Fill (Some (mkTilePosition 1 2 3))) 2 (-1) "fill" = None /\
  applyTool 1 (state_5x5 Fill (Some (mkTilePosition 1 2 3))) 7 2 "fill"
  = Some (state_5x5 Fill (Some (mkTilePosition 1 2 3))).
Proof.
  pose proof (applyTool_outside_map 1 (state_5x5 Fill (Some (mkTilePosition 1 2 3)))
                empty_layer_5x5 (replicate 5 (replicate 5 None)) 2 (-1)
                eq_refl eq_refl ltac:(split; [reflexivity|repeat constructor])
                eq_refl ltac:(lia)) as [_ [H1 _]].
  pose proof (applyTool_outside_map 1 (state_5x5 Fill (Some (mkTilePosition 1 2 3)))
                empty_layer_5x5 (replicate 5 (replicate 5 None)) 7 2
                eq_refl eq_refl ltac:(split; [reflexivity|repeat constructor])
                eq_refl ltac:(lia)) as [_ [H2 H3]].
  split.
  - apply H1. split; [discriminate|simpl; lia].
  - apply H3. intros E. apply H2 in E as [_ E]. apply E. simpl. lia.
Defined.

(** X5: the large brush of [applyTool] has no bounds check on its centre:
    for any [(x, y)], inside the map or not, it writes the selected tile
    into the cells of the 3x3 block around [(x, y)] that lie inside the map
    and keeps the others, so a centre just outside the map still paints
    the adjacent border cells (where [applyToolAtPosition] returns the
    state unchanged). *)
Theorem applyTool_large_brush_block (fuel : nat) (st : EditorState) (cl : JsLayer)
    (g : grid) (tp : TilePosition) (x y : Z) :
  js_get st.(layers) st.(currentLayer) = Some cl -> cl.(tiles) = Some g ->
  wf_grid st.(mapSize) g -> st.(selectedTile) = Some tp ->
  exists g',
    applyTool fuel st x y "largeBrush"
    = Some (with_layers st (js_set st.(layers) st.(currentLayer) (update_layer cl g'))) /\
    wf_grid st.(mapSize) g' /\
    forall i j, in_bounds st.(mapSize) i j = true ->
      cell_at g' i j = if (Z.abs (i - x) <=? 1) && (Z.abs (j - y) <=? 1)
                       then Some (encode_tile tp) else cell_at g i j.
Proof.
  intros Hget Htiles Hw Htile.
  exists (large_brush st.(mapSize) x y (Some (encode_tile tp)) g).
  destruct (fold_write_if_in st.(mapSize) (Some (encode_tile tp)) (block3 x y) g Hw)
    as [Hw' Hc].
  rewrite large_brush_fold. split; [|split; [exact Hw'|]].
  - unfold applyTool. rewrite Htile. simpl. rewrite Hget, Htiles. simpl.
    rewrite applyTool_large_brush, large_brush_fold. reflexivity.
  - intros i j Hij. rewrite Hc by exact Hij. rewrite block3_membership. reflexivity.
Qed.

Lemma applyTool_large_brush_block_witness :
  exists g',
    applyTool 0 (state_5x5 LargeBrush (Some (mkTilePosition 1 0 0))) (-1) 0 "largeBrush"
    = Some (with_layers (state_5x5 LargeBrush (Some (mkTilePosition 1 0 0)))
              [Some (update_layer empty_layer_5x5 g')]) /\
    cell_at g' 0 0 = Some "1,0,0" /\ cell_at g' 0 2 = None.
Proof.
  destruct (applyTool_large_brush_block 0 (state_5x5 LargeBrush (Some (mkTilePosition 1 0 0)))
              empty_layer_5x5 (replicate 5 (replicate 5 None)) (mkTilePosition 1 0 0) (-1) 0
              eq_refl eq_refl ltac:(split; [reflexivity|repeat constructor]) eq_refl)
    as [g' [E [_ Hc]]].
  exists g'. split; [exact E|].
  rewrite (Hc 0 0 eq_refl), (Hc 0 2 eq_refl). split; reflexivity.
Defined.

(** ** Hexagonal coordinates and canvas clicks *)

Section HexTransform.
Local Open Scope Q_scope.


Lemma inject_Z_pos (ts : Z) : (0 < ts)%Z -> 0 < inject_Z ts.
Proof. intros H. change 0 with (inject_Z 0). rewrite <- Zlt_Qlt. exact H. Qed.



Lemma Qfloor_range (q : Q) (n : Z) :
  0 <= q -> q < inject_Z n -> (0 <= Qfloor q < n)%Z.
Proof.
  intros H1 H2. split.
  - rewrite <- (Qfloor_Z 0). apply Qfloor_resp_le. exact H1.
  - rewrite Zlt_Qlt. apply (Qle_lt_trans _ q); [apply Qfloor_le|exact H2].
Qed.

(** X7: on a grid map, every pixel of the canvas bitmap
    ([width * tileSize] by [height * tileSize], the coordinate range of
    [Canvas]'s mouse handlers) is mapped by [canvasToMapPosition] to a cell
    inside the map. *)
Theorem grid_click_in_bounds (w h ts : Z) (px py : Q) :
  (0 < ts)%Z -> 0 <= px < inject_Z (w * ts) -> 0 <= py < inject_Z (h * ts) ->
  let c := canvasToMapPosition px py (inject_Z ts) Grid in
  in_bounds (mkMapSize w h) (fst c) (snd c) = true.
Proof.
  intros Hts [Hx1 Hx2] [Hy1 Hy2] c. subst c.
  pose proof (inject_Z_pos ts Hts) as Ht.
  unfold canvasToMapPosition. cbn [fst snd]. apply in_bounds_spec. cbn [width height].
  assert (Hdiv : forall (p : Q) (n : Z), 0 <= p -> p < inject_Z (n * ts) ->
                   0 <= p / inject_Z ts /\ p / inject_Z ts < inject_Z n).
  { intros p n H1 H2. split.
    - apply Qle_shift_div_l; [exact Ht|]. rewrite Qmult_0_l. exact H1.
    - apply Qlt_shift_div_r; [exact Ht|]. rewrite <- inject_Z_mult. exact H2. }
  destruct (Hdiv px w Hx1 Hx2) as [A1 A2]. destruct (Hdiv py h Hy1 Hy2) as [B1 B2].
  pose proof (Qfloor_range _ _ A1 A2). pose proof (Qfloor_range _ _ B1 B2). lia.
Qed.

Lemma grid_click_in_bounds_witness :
  in_bounds (mkMapSize 64 64)
    (fst (canvasToMapPosition (1023 # 1) (0 # 1) (inject_Z 16) Grid))
    (snd (canvasToMapPosition (1023 # 1) (0 # 1) (inject_Z 16) Grid)) = true.
Proof.
  apply (grid_click_in_bounds 64 64 16 (1023 # 1) (0 # 1) ltac:(lia));
    split; vm_compute; try discriminate; reflexivity.
Defined.



End HexTransform.

(** ** Layer operations composed *)

Lemma splice1_in {A} (a : list A) (index : Z) :
  0 <= index < Z.of_nat (length a) ->
  splice1 a index = take (Z.to_nat index) a ++ drop (S (Z.to_nat index)) a.
Proof.
  intros Hi. unfold splice1, splice_start.
  destruct (Z.ltb_spec index 0); [lia|]. rewrite Nat.min_l by lia. reflexivity.
Qed.

Lemma splice1_last {A} (a : list A) (x : A) :
  splice1 (a ++ [x]) (Z.of_nat (length a)) = a.
Proof.
  rewrite splice1_in by (rewrite length_app; simpl; lia).
  rewrite Nat2Z.id, take_app_length, drop_ge by (rewrite length_app; simpl; lia).
  apply app_nil_r.
Qed.

(** X9: when the layer list is not empty, [addLayer] followed by
    [removeLayer] at the index of the added layer gives back the old layer
    list, with the last old layer selected. *)
Theorem addLayer_then_remove (fid : string) (st st' : EditorState) :
  st.(layers) <> [] -> addLayer fid st = Some st' ->
  removeLayer (Z.of_nat (length st.(layers))) st'
  = with_layers_current st st.(layers) (Z.of_nat (length st.(layers)) - 1).
Proof.
  intros Hne Hadd. unfold addLayer in Hadd.
  destruct (createEmptyLayer _ _ _ _) as [l|]; [|discriminate].
  injection Hadd as <-. unfold removeLayer, with_layers_current. cbn [layers currentLayer].
  assert (Hl : (1 <= length (layers st))%nat) by (destruct (layers st); [congruence|simpl; lia]).
  rewrite length_app. cbn [length].
  destruct (Nat.leb_spec (length (layers st) + 1) 1); [lia|].
  rewrite splice1_last.
  rewrite Z.geb_leb, (proj2 (Z.leb_le _ _)) by lia. reflexivity.
Qed.

Lemma addLayer_then_remove_witness :
  layer_2x1_state.(layers) <> [] /\
  addLayer "b" layer_2x1_state = Some added_layer_state /\
  removeLayer (Z.of_nat (length layer_2x1_state.(layers))) added_layer_state
  = with_layers_current layer_2x1_state layer_2x1_state.(layers)
      (Z.of_nat (length layer_2x1_state.(layers)) - 1).
Proof.
  split; [discriminate|]. split; [vm_compute; reflexivity|].
  apply (addLayer_then_remove "b"); [discriminate|vm_compute; reflexivity].
Defined.

Lemma js_get_set_in {A} (a : list (option A)) (i : Z) (u v : A) :
  js_get a i = Some u -> js_get (js_set a i v) i = Some v.
Proof.
  intros H. destruct (js_get_Some_range _ _ _ H) as [H1 H2].
  unfold js_get, js_set. rewrite (proj2 (Z.ltb_ge i 0)) by lia.
  rewrite (proj2 (Nat.ltb_lt _ _)) by lia.
  rewrite list_lookup_insert_eq by lia. reflexivity.
Qed.

Lemma js_set_set_in {A} (a : list (option A)) (i : Z) (u v w : A) :
  js_get a i = Some u -> js_set (js_set a i v) i w = js_set a i w.
Proof.
  intros H. destruct (js_get_Some_range _ _ _ H) as [H1 H2].
  assert (E : forall (b : list (option A)) (z : A), (Z.to_nat i < length b)%nat ->
                js_set b i z = <[Z.to_nat i := Some z]> b).
  { intros b z Hb. unfold js_set. rewrite (proj2 (Z.ltb_ge i 0)) by lia.
    rewrite (proj2 (Nat.ltb_lt _ _)) by lia. reflexivity. }
  rewrite (E a v), (E a w), E by (try rewrite E by lia; rewrite ?length_insert; lia).
  apply list_insert_insert_eq.
Qed.

Lemma with_layers_twice (st : EditorState) (a b : list (option JsLayer)) :
  with_layers (with_layers st a) b = with_layers st b.
Proof. reflexivity. Qed.

(** X10: toggling the visibility of an existing layer whose [visible] is a
    boolean twice gives back the state. *)
Theorem toggleLayerVisibility_twice (st st1 : EditorState) (i : Z) (l : JsLayer) (b : bool) :
  js_get st.(layers) i = Some l -> l.(visible) = Some b ->
  toggleLayerVisibility i st = Some st1 -> toggleLayerVisibility i st1 = Some st.
Proof.
  intros Hget Hvis Ht. unfold toggleLayerVisibility in Ht |- *.
  rewrite Hget in Ht. injection Ht as <-. cbn [layers with_layers].
  erewrite js_get_set_in by exact Hget. cbn [id name visible tiles].
  rewrite Hvis. cbn [truthy]. rewrite negb_involutive.
  f_equal. rewrite with_layers_twice. erewrite js_set_set_in by exact Hget.
  replace (mkJsLayer (id l) (name l) (Some b) (tiles l)) with l
    by (destruct l; cbn in Hvis |- *; congruence).
  rewrite js_set_same by exact Hget. apply with_layers_same.
Qed.

Lemma toggleLayerVisibility_twice_witness :
  exists st1,
    js_get layer_2x1_state.(layers) 0 = Some (mkJsLayer (Some "a") (Some "Layer 1 (Base)") (Some true) (Some [[None; None]])) /\
    toggleLayerVisibility 0 layer_2x1_state = Some st1 /\
    toggleLayerVisibility 0 st1 = Some layer_2x1_state.
Proof.
  eexists. split; [reflexivity|]. split; [reflexivity|].
  apply (toggleLayerVisibility_twice layer_2x1_state _ 0
           (mkJsLayer (Some "a") (Some "Layer 1 (Base)") (Some true) (Some [[None; None]])) true);
    reflexivity.
Defined.

Lemma resized_entries_wf (ms : MapSize) (w h : Z) (ls ls' : list (option JsLayer)) :
  Forall2 (resized_entry ms w h) ls ls' ->
  Forall (fun e => exists l g, e = Some l /\ l.(tiles) = Some g /\ wf_grid (mkMapSize w h) g) ls'.
Proof.
  induction 1 as [|e e' ls ls' [l [g [g' [_ [_ [-> [Hwf _]]]]]]] _ IH]; constructor; [|exact IH].
  exists (update_layer l g'), g'. split; [reflexivity|]. split; [reflexivity|exact Hwf].
Qed.

Lemma resized_entries_back (w h w' h' : Z) (ls ls1 ls2 : list (option JsLayer)) :
  w <= w' -> h <= h' ->
  Forall (fun e => exists l g, e = Some l /\ l.(tiles) = Some g /\ wf_grid (mkMapSize w h) g) ls ->
  Forall2 (resized_entry (mkMapSize w h) w' h') ls ls1 ->
  Forall2 (resized_entry (mkMapSize w' h') w h) ls1 ls2 -> ls2 = ls.
Proof.
  intros Hw Hh Hwf H1. revert ls2 Hwf.
  induction H1 as [|e e1 ls ls1 [l [g [g1 [-> [Hg [-> [Hwf1 Hc1]]]]]]] _ IH];
    intros ls2 Hwf H2; inversion H2 as [|? e2 ? ls2' [l' [g' [g2 [El [Hg' [-> [Hwf2 Hc2]]]]]]] Hrest];
    subst; [reflexivity|].
  inversion Hwf as [|? ? [l0 [g0 [E0 [Hg0 Hwf0]]]] Hwfr]; subst.
  injection E0 as <-. rewrite Hg in Hg0. injection Hg0 as <-.
  injection El as <-. cbn in Hg'. injection Hg' as <-.
  f_equal; [|apply IH; assumption].
  assert (Hg2 : g2 = g).
  { apply (grid_ext (mkMapSize w h)); [exact Hwf2|exact Hwf0|].
    intros i j Hij. apply in_bounds_spec in Hij. cbn [width height] in Hij.
    rewrite Hc2 by lia. cbn [width height].
    rewrite (proj2 (Z.ltb_lt i _)), (proj2 (Z.ltb_lt j _)) by lia. cbn [andb].
    rewrite Hc1 by lia. cbn [width height].
    rewrite (proj2 (Z.ltb_lt i _)), (proj2 (Z.ltb_lt j _)) by lia. reflexivity. }
  subst g2. f_equal. destruct l; unfold update_layer; cbn in *. subst. reflexivity.
Qed.

(** X11: when every layer has the map's dimensions, growing the map with
    [setMapSize] and then resizing it back to its old dimensions gives back
    the state: every tile is kept. *)
Theorem setMapSize_grow_shrink (st st1 : EditorState) (w' h' : Z) :
  0 <= st.(mapSize).(width) <= w' -> 0 <= st.(mapSize).(height) <= h' ->
  layers_wf st -> setMapSize w' h' st = Some st1 ->
  setMapSize st.(mapSize).(width) st.(mapSize).(height) st1 = Some st.
Proof.
  intros Hw Hh Hwf Hs. unfold layers_wf in Hwf.
  destruct st as [mt ts [w h] tool cur ls tset tile mts cpos zoom]; cbn in *.
  destruct (resize_layers_spec (mkMapSize w h) w' h' ls ltac:(lia) ltac:(lia) Hwf)
    as [ls1 [Hr1 Hall1]].
  unfold setMapSize in Hs. cbn in Hs. rewrite Hr1 in Hs. injection Hs as <-.
  destruct (resize_layers_spec (mkMapSize w' h') w h ls1 ltac:(lia) ltac:(lia)
              (resized_entries_wf _ _ _ _ _ Hall1)) as [ls2 [Hr2 Hall2]].
  unfold setMapSize. cbn. rewrite Hr2.
  rewrite (resized_entries_back w h w' h' ls ls1 ls2 ltac:(lia) ltac:(lia) Hwf Hall1 Hall2).
  reflexivity.
Qed.

Lemma setMapSize_grow_shrink_witness :
  exists st1,
    layers_wf layer_2x1_state /\
    setMapSize 3 2 layer_2x1_state = Some st1 /\
    setMapSize layer_2x1_state.(mapSize).(width) layer_2x1_state.(mapSize).(height) st1
      = Some layer_2x1_state.
Proof.
  eexists. split; [|split; [reflexivity|]].
  - constructor; [|constructor]. do 2 eexists. split; [reflexivity|]. split; [reflexivity|].
    split; [reflexivity|]. repeat constructor.
  - apply (setMapSize_grow_shrink layer_2x1_state _ 3 2); cbn; try lia; [|reflexivity].
    constructor; [|constructor]. do 2 eexists. split; [reflexivity|]. split; [reflexivity|].
    split; [reflexivity|]. repeat constructor.
Defined.

Lemma splice1_lookup {A} (a : list A) (index : Z) (k : nat) :
  0 <= index < Z.of_nat (length a) ->
  splice1 a index !! k = a !! (if (Z.to_nat index <=? k)%nat then S k else k).
Proof.
  intros Hi. rewrite splice1_in by exact Hi.
  destruct (Nat.leb_spec (Z.to_nat index) k).
  - rewrite lookup_app_r by (rewrite length_take; lia).
    rewrite lookup_drop, length_take. f_equal. lia.
  - rewrite lookup_app_l by (rewrite length_take; lia).
    rewrite lookup_take_lt by lia. reflexivity.
Qed.

(** X12: removing an existing layer while the selected layer is not the
    last one keeps the [currentLayer] number.  The entry at that number is
    the next layer up when the removed index is at or below the selection,
    and the same layer otherwise. *)
Theorem removeLayer_shifts_selection (st : EditorState) (i : Z) :
  0 <= i < Z.of_nat (length st.(layers)) ->
  0 <= st.(currentLayer) < Z.of_nat (length st.(layers)) - 1 ->
  (removeLayer i st).(currentLayer) = st.(currentLayer) /\
  (removeLayer i st).(layers) !! Z.to_nat st.(currentLayer)
  = st.(layers) !! (if i <=? st.(currentLayer) then (Z.to_nat st.(currentLayer) + 1)%nat
                    else Z.to_nat st.(currentLayer)).
Proof.
  intros Hi Hc. unfold removeLayer.
  destruct (Nat.leb_spec (length st.(layers)) 1); [lia|].
  assert (Hlen : length (splice1 st.(layers) i) = (length st.(layers) - 1)%nat).
  { rewrite splice1_length. unfold splice_start.
    rewrite (proj2 (Z.ltb_ge i 0)) by lia. rewrite Nat.min_l by lia.
    rewrite (proj2 (Nat.ltb_lt _ _)) by lia. reflexivity. }
  cbn [currentLayer layers with_layers_current]. rewrite Hlen.
  rewrite Z.geb_leb, (proj2 (Z.leb_gt _ _)) by lia. split; [reflexivity|].
  rewrite splice1_lookup by exact Hi.
  destruct (Z.leb_spec i (currentLayer st)); destruct (Nat.leb_spec (Z.to_nat i) (Z.to_nat (currentLayer st)));
    try lia; f_equal; lia.
Qed.

Lemma removeLayer_shifts_selection_witness :
  let st := setCurrentLayer 0 added_layer_state in
  (0 <= 0 < Z.of_nat (length st.(layers))) /\
  (0 <= st.(currentLayer) < Z.of_nat (length st.(layers)) - 1) /\
  (removeLayer 0 st).(currentLayer) = st.(currentLayer) /\
  (removeLayer 0 st).(layers) !! Z.to_nat st.(currentLayer) = st.(layers) !! 1%nat.
Proof.
  intros st. assert (H1 : 0 <= 0 < Z.of_nat (length st.(layers))) by (vm_compute; split; congruence).
  assert (H2 : 0 <= st.(currentLayer) < Z.of_nat (length st.(layers)) - 1)
    by (vm_compute; split; congruence).
  split; [exact H1|]. split; [exact H2|].
  exact (removeLayer_shifts_selection st 0 H1 H2).
Defined.

(** ** Zoom buttons *)

(** X13: the zoom buttons keep the zoom level a multiple of 25 between
    50 and 200. *)
Theorem zoom_buttons_keep_steps (st : EditorState) :
  zoom_step_ok st.(zoomLevel) ->
  zoom_step_ok (handleZoomIn st).(zoomLevel) /\ zoom_step_ok (handleZoomOut st).(zoomLevel).
Proof.
  unfold zoom_step_ok, handleZoomIn, handleZoomOut, setZoomLevel. cbn [zoomLevel].
  intros [H1 H2]. split; split; try lia.
  - destruct (Z.min_spec (zoomLevel st + 25) 200) as [[_ ->]|[_ ->]]; [|reflexivity].
    rewrite Zplus_mod, H2. reflexivity.
  - destruct (Z.max_spec (zoomLevel st - 25) 50) as [[_ ->]|[_ ->]]; [reflexivity|].
    rewrite Zminus_mod, H2. reflexivity.
Qed.

(** X14: zooming in and then out gives back the state when the zoom level
    is at most 175.  Zooming out and then in does so when it is at least
    75. *)
Theorem zoom_in_out_inverse (st : EditorState) :
  (50 <= st.(zoomLevel) <= 175 -> handleZoomOut (handleZoomIn st) = st) /\
  (75 <= st.(zoomLevel) <= 200 -> handleZoomIn (handleZoomOut st) = st).
Proof.
  unfold handleZoomIn, handleZoomOut, setZoomLevel. destruct st; cbn. split; intros H.
  - rewrite Z.min_l by lia. rewrite Z.max_l by lia. f_equal. lia.
  - rewrite Z.max_l by lia. rewrite Z.min_l by lia. f_equal. lia.
Qed.

Lemma zoom_buttons_keep_steps_witness :
  zoom_step_ok (setZoomLevel 100 layer_2x1_state).(zoomLevel) /\
  zoom_step_ok (handleZoomIn (setZoomLevel 100 layer_2x1_state)).(zoomLevel).
Proof.
  assert (H : zoom_step_ok (setZoomLevel 100 layer_2x1_state).(zoomLevel))
    by (cbn; unfold zoom_step_ok; split; [lia|reflexivity]).
  split; [exact H|]. exact (proj1 (zoom_buttons_keep_steps _ H)).
Defined.

Lemma zoom_in_out_inverse_witness :
  (50 <= (setZoomLevel 100 layer_2x1_state).(zoomLevel) <= 175) /\
  handleZoomOut (handleZoomIn (setZoomLevel 100 layer_2x1_state)) = setZoomLevel 100 layer_2x1_state.
Proof.
  assert (H : 50 <= (setZoomLevel 100 layer_2x1_state).(zoomLevel) <= 175) by (cbn; lia).
  split; [exact H|]. exact (proj1 (zoom_in_out_inverse _) H).
Defined.

Lemma blank_grid_wf (w h : Z) :
  wf_grid (mkMapSize w h) (replicate (Z.to_nat h) (replicate (Z.to_nat w) None)).
Proof.
  split; cbn [width height]; [apply length_replicate|].
  apply Forall_replicate, length_replicate.
Qed.

Lemma blank_grid_cell (w h x y : Z) :
  cell_at (replicate (Z.to_nat h) (replicate (Z.to_nat w) None)) x y = None.
Proof.
  unfold cell_at. destruct (replicate _ _ !! _) as [row|] eqn:E; [|reflexivity].
  apply lookup_replicate in E as [-> _].
  destruct (replicate _ None !! _) as [c|] eqn:E'; [|reflexivity].
  apply lookup_replicate in E' as [-> _]. reflexivity.
Qed.

(** X15: on a map of non-negative size whose layers all have the map's
    dimensions, [addLayer] succeeds.  It appends one visible layer of empty
    cells and selects it.  The map size is unchanged, and every layer still
    has the map's dimensions. *)
Theorem addLayer_keeps_layers_wf (fid : string) (st : EditorState) :
  0 <= st.(mapSize).(width) -> 0 <= st.(mapSize).(height) -> layers_wf st ->
  exists st' l g,
    addLayer fid st = Some st' /\
    st'.(layers) = st.(layers) ++ [Some l] /\
    st'.(currentLayer) = Z.of_nat (length st.(layers)) /\
    st'.(mapSize) = st.(mapSize) /\
    l.(visible) = Some true /\ l.(tiles) = Some g /\
    (forall x y, cell_at g x y = None) /\
    layers_wf st'.
Proof.
  intros Hw Hh Hwf. unfold addLayer, createEmptyLayer.
  rewrite (proj2 (Z.ltb_ge _ 0)) by lia. rewrite (proj2 (Z.ltb_ge (width _) 0)) by lia.
  rewrite andb_false_r.
  do 3 eexists. split; [reflexivity|]. cbn.
  split; [reflexivity|]. split; [reflexivity|]. split; [reflexivity|].
  split; [reflexivity|]. split; [reflexivity|]. split; [apply blank_grid_cell|].
  unfold layers_wf. cbn. apply Forall_app. split; [exact Hwf|].
  constructor; [|constructor]. do 2 eexists. split; [reflexivity|]. split; [reflexivity|].
  destruct (mapSize st) as [w h]. apply blank_grid_wf.
Qed.

Lemma addLayer_keeps_layers_wf_witness :
  (0 <= layer_2x1_state.(mapSize).(width)) /\ (0 <= layer_2x1_state.(mapSize).(height)) /\
  layers_wf layer_2x1_state /\
  exists st' l g,
    addLayer "b" layer_2x1_state = Some st' /\
    st'.(layers) = layer_2x1_state.(layers) ++ [Some l] /\
    st'.(currentLayer) = Z.of_nat (length layer_2x1_state.(layers)) /\
    st'.(mapSize) = layer_2x1_state.(mapSize) /\
    l.(visible) = Some true /\ l.(tiles) = Some g /\
    (forall x y, cell_at g x y = None) /\
    layers_wf st'.
Proof.
  assert (H1 : 0 <= layer_2x1_state.(mapSize).(width)) by (cbn; lia).
  assert (H2 : 0 <= layer_2x1_state.(mapSize).(height)) by (cbn; lia).
  assert (H3 : layers_wf layer_2x1_state).
  { constructor; [|constructor]. do 2 eexists. split; [reflexivity|]. split; [reflexivity|].
    split; [reflexivity|]. repeat constructor. }
  split; [exact H1|]. split; [exact H2|]. split; [exact H3|].
  exact (addLayer_keeps_layers_wf "b" layer_2x1_state H1 H2 H3).
Defined.

(** ** Canvas drawing *)

Lemma stroke_loop_spec (limit ts : Z) (line : Z -> segment) (fuel : nat) (k : Z) :
  0 < ts -> 0 <= k -> k <= limit / ts + 1 -> (Z.to_nat (limit / ts + 1 - k) < fuel)%nat ->
  stroke_loop fuel (k * ts) limit ts line
  = Some (map (fun i => line (i * ts)) (seqZ k (limit / ts + 1 - k))).
Proof.
  intros Hts. revert k. induction fuel as [|fuel IH]; intros k Hk Hk1 Hf; [lia|].
  cbn [stroke_loop].
  destruct (Z.leb_spec (k * ts) limit) as [Hle|Hgt].
  - assert (Hq : k <= limit / ts) by (apply Z.div_le_lower_bound; lia).
    replace (k * ts + ts) with ((k + 1) * ts) by ring.
    rewrite IH by lia. rewrite (seqZ_cons k) by lia. cbn [map].
    replace (Z.succ k) with (k + 1) by lia. replace (Z.pred (limit / ts + 1 - k)) with (limit / ts + 1 - (k + 1)) by lia.
    reflexivity.
  - assert (Hq : limit / ts < k).
    { pose proof (Z.mul_div_le limit ts Hts). nia. }
    rewrite seqZ_nil by lia. reflexivity.
Qed.

Lemma drawGrid_grid_spec (w h ts : Z) (fuel : nat) :
  0 < ts -> 0 <= w -> 0 <= h -> (Z.to_nat (w / ts + 1) < fuel)%nat -> (Z.to_nat (h / ts + 1) < fuel)%nat ->
  drawGrid_grid fuel w h ts
  = Some (map (fun k => ((k * ts, 0), (k * ts, h * ts))) (seqZ 0 (w / ts + 1))
          ++ map (fun k => ((0, k * ts), (w * ts, k * ts))) (seqZ 0 (h / ts + 1))).
Proof.
  intros Hts Hw Hh Hfw Hfh. unfold drawGrid_grid.
  assert (Hw' : 0 <= w / ts) by (apply Z.div_pos; lia).
  assert (Hh' : 0 <= h / ts) by (apply Z.div_pos; lia).
  pose proof (stroke_loop_spec w ts (fun x => ((x, 0), (x, h * ts))) fuel 0 Hts) as A.
  pose proof (stroke_loop_spec h ts (fun y => ((0, y), (w * ts, y))) fuel 0 Hts) as B.
  rewrite Z.mul_0_l, Z.sub_0_r in A, B.
  rewrite A, B by lia. reflexivity.
Qed.

(** X16: on a grid map with a positive tile size, [drawGrid] strokes
    [width / tileSize + 1] vertical lines at the multiples of [tileSize] up
    to [width].  It then strokes [height / tileSize + 1] horizontal lines
    in the same way.  The loops compare a pixel coordinate with a number of
    tiles. *)
Theorem drawGrid_grid_lines (w h ts : Z) (fuel : nat) :
  0 < ts -> 0 <= w -> 0 <= h -> (Z.to_nat (w / ts + 1) < fuel)%nat -> (Z.to_nat (h / ts + 1) < fuel)%nat ->
  drawGrid_grid fuel w h ts
  = Some (map (fun k => ((k * ts, 0), (k * ts, h * ts))) (seqZ 0 (w / ts + 1))
          ++ map (fun k => ((0, k * ts), (w * ts, k * ts))) (seqZ 0 (h / ts + 1))).
Proof. apply drawGrid_grid_spec. Qed.


(** X17: on a grid map with a tile size above 1 and a positive width,
    [drawGrid] never strokes the right border line of the map at
    [width * tileSize]. *)
Theorem drawGrid_grid_misses_border (w h ts : Z) (fuel : nat) (segs : list segment) :
  1 < ts -> 0 < w -> 0 <= h ->
  (Z.to_nat (w / ts + 1) < fuel)%nat -> (Z.to_nat (h / ts + 1) < fuel)%nat ->
  drawGrid_grid fuel w h ts = Some segs ->
  ((w * ts, 0), (w * ts, h * ts)) ∉ segs.
Proof.
  intros Hts Hw Hh Hf1 Hf2 Hd.
  rewrite drawGrid_grid_spec in Hd by lia. injection Hd as <-.
  assert (Hlt : w / ts < w) by (apply Z.div_lt; lia).
  rewrite elem_of_app, !list_elem_of_fmap. intros [[k [Ek Hk]]|[k [Ek Hk]]].
  - apply elem_of_seqZ in Hk. injection Ek; intros; nia.
  - injection Ek; intros; nia.
Qed.

Lemma drawGrid_grid_lines_witness :
  drawGrid_grid 6 4 2 16 = Some [((0, 0), (0, 32)); ((0, 0), (64, 0))].
Proof.
  rewrite (drawGrid_grid_lines 4 2 16 6) by (lia || (vm_compute; lia)). reflexivity.
Defined.

Lemma drawGrid_grid_misses_border_witness :
  drawGrid_grid 6 4 2 16 = Some [((0, 0), (0, 32)); ((0, 0), (64, 0))] /\
  ((4 * 16, 0), (4 * 16, 2 * 16)) ∉ [((0, 0), (0, 32)); ((0, 0), (64, 0))].
Proof.
  assert (H : drawGrid_grid 6 4 2 16 = Some [((0, 0), (0, 32)); ((0, 0), (64, 0))])
    by reflexivity.
  split; [exact H|].
  exact (drawGrid_grid_misses_border 4 2 16 6 _ ltac:(lia) ltac:(lia) ltac:(lia)
           ltac:(vm_compute; lia) ltac:(vm_compute; lia) H).
Defined.

Lemma decode_tile_encode (tp : TilePosition) :
  decode_tile (encode_tile tp) = Some (tp.(tilesetId), tp.(tile_x), tp.(tile_y)).
Proof.
  destruct tp as [a b c]. unfold decode_tile, encode_tile; simpl.
  rewrite split_on_app by apply no_comma_number.
  rewrite split_on_app by apply no_comma_number.
  rewrite split_on_single by apply no_comma_number. simpl.
  rewrite !Number_int_number_to_string. reflexivity.
Qed.

Lemma encode_tile_nonempty (tp : TilePosition) : encode_tile tp <> EmptyString.
Proof. unfold encode_tile. destruct (number_to_string _); discriminate. Qed.

Lemma draw_cell_encode (loaded : Z -> bool) (ts : Q) (mt : MapType) (x y : Z) (tp : TilePosition) :
  draw_cell loaded ts mt x y (Some (encode_tile tp))
  = Some (if loaded tp.(tilesetId)
          then [drawTile tp.(tilesetId) tp.(tile_x) tp.(tile_y) x y ts mt] else []).
Proof.
  unfold draw_cell. pose proof (encode_tile_nonempty tp) as Hne.
  destruct (encode_tile tp) as [|a s] eqn:E; [contradiction|].
  rewrite <- E, decode_tile_encode. reflexivity.
Qed.

Lemma draw_row_spec (loaded : Z -> bool) (ts : Q) (mt : MapType) (y : Z) (row : list cell) :
  Forall (fun c => c = None \/ exists tp, c = Some (encode_tile tp)) row ->
  forall x, exists tr, draw_row loaded ts mt x y row = Some tr /\
    forall d, d ∈ tr <-> exists (i : nat) c, row !! i = Some c /\
                          drawn_at loaded ts mt (x + Z.of_nat i) y c d.
Proof.
  induction 1 as [|c row Hc _ IH]; intros x.
  - exists []. split; [reflexivity|]. intros d. split; [intros Hd; inversion Hd|].
    intros [i [c [Hi _]]]. rewrite lookup_nil in Hi. discriminate.
  - destruct (IH (x + 1)) as [tr [Htr Hmem]].
    destruct Hc as [->|[tp ->]].
    + exists tr. cbn [draw_row draw_cell]. rewrite Htr. split; [reflexivity|].
      intros d. rewrite Hmem. split.
      * intros [i [c [Hi Hd]]]. exists (S i), c. split; [exact Hi|].
        replace (x + Z.of_nat (S i)) with (x + 1 + Z.of_nat i) by lia. exact Hd.
      * intros [[|i] [c [Hi Hd]]].
        -- injection Hi as <-. destruct Hd as [tp [E _]]. discriminate.
        -- exists i, c. split; [exact Hi|].
           replace (x + 1 + Z.of_nat i) with (x + Z.of_nat (S i)) by lia. exact Hd.
    + eexists. cbn [draw_row]. rewrite draw_cell_encode, Htr. split; [reflexivity|].
      intros d. rewrite elem_of_app, Hmem. split.
      * intros [Hd|[i [c [Hi Hd]]]].
        -- destruct (loaded (tilesetId tp)) eqn:El; [|inversion Hd].
           apply list_elem_of_singleton in Hd. exists O, (Some (encode_tile tp)).
           split; [reflexivity|]. exists tp. rewrite Z.add_0_r. auto.
        -- exists (S i), c. split; [exact Hi|].
           replace (x + Z.of_nat (S i)) with (x + 1 + Z.of_nat i) by lia. exact Hd.
      * intros [[|i] [c [Hi Hd]]].
        -- injection Hi as <-. destruct Hd as [tp' [E [El ->]]]. left.
           injection E as E. assert (Etp : tp' = tp).
           { pose proof (decode_tile_encode tp) as D1. pose proof (decode_tile_encode tp') as D2.
             rewrite E in D1. rewrite D2 in D1. injection D1 as E1 E2 E3.
             destruct tp, tp'; cbn in *; congruence. }
           subst tp'. rewrite El, Z.add_0_r. apply list_elem_of_singleton. reflexivity.
        -- right. exists i, c. split; [exact Hi|].
           replace (x + 1 + Z.of_nat i) with (x + Z.of_nat (S i)) by lia. exact Hd.
Qed.

Lemma draw_rows_spec (loaded : Z -> bool) (ts : Q) (mt : MapType) (g : grid) :
  cells_encoded g ->
  forall y, exists tr, draw_rows loaded ts mt y g = Some tr /\
    forall d, d ∈ tr <-> exists (i j : nat) row c, g !! j = Some row /\ row !! i = Some c /\
                          drawn_at loaded ts mt (Z.of_nat i) (y + Z.of_nat j) c d.
Proof.
  unfold cells_encoded. induction 1 as [|row g Hrow _ IH]; intros y.
  - exists []. split; [reflexivity|]. intros d. split; [intros Hd; inversion Hd|].
    intros [i [j [row [c [Hj _]]]]]. rewrite lookup_nil in Hj. discriminate.
  - destruct (IH (y + 1)) as [tr [Htr Hmem]].
    destruct (draw_row_spec loaded ts mt y row Hrow 0) as [tr0 [Hr0 Hmem0]].
    exists (tr0 ++ tr). cbn [draw_rows]. rewrite Hr0, Htr. split; [reflexivity|].
    intros d. rewrite elem_of_app, Hmem0, Hmem. split.
    + intros [[i [c [Hi Hd]]]|[i [j [row' [c [Hj [Hi Hd]]]]]]].
      * exists i, O, row, c. split; [reflexivity|]. split; [exact Hi|].
        rewrite Z.add_0_r. exact Hd.
      * exists i, (S j), row', c. split; [exact Hj|]. split; [exact Hi|].
        replace (y + Z.of_nat (S j)) with (y + 1 + Z.of_nat j) by lia. exact Hd.
    + intros [i [[|j] [row' [c [Hj [Hi Hd]]]]]].
      * left. injection Hj as <-. exists i, c. split; [exact Hi|].
        rewrite Z.add_0_r in Hd. exact Hd.
      * right. exists i, j, row', c. split; [exact Hj|]. split; [exact Hi|].
        replace (y + 1 + Z.of_nat j) with (y + Z.of_nat (S j)) by lia. exact Hd.
Qed.

(** X18: on a layer whose cells are empty or hold tile encodings, [drawLayer]
    makes exactly one [drawImage] call for each cell holding a tile whose
    tileset is loaded.  The call copies the source square
    [(tileX * tileSize, tileY * tileSize)] to the cell's
    [mapToCanvasPosition]. *)
Theorem drawLayer_draws_encoded_cells (loaded : Z -> bool) (l : JsLayer) (g : grid)
    (ts : Q) (mt : MapType) :
  l.(tiles) = Some g -> cells_encoded g ->
  exists tr, drawLayer loaded l ts mt = Some tr /\
    forall d, d ∈ tr <->
      exists (x y : nat) row tp,
        g !! y = Some row /\ row !! x = Some (Some (encode_tile tp)) /\
        loaded tp.(tilesetId) = true /\
        d = drawTile tp.(tilesetId) tp.(tile_x) tp.(tile_y) (Z.of_nat x) (Z.of_nat y) ts mt.
Proof.
  intros Hg Henc. destruct (draw_rows_spec loaded ts mt g Henc 0) as [tr [Htr Hmem]].
  exists tr. unfold drawLayer. rewrite Hg, Htr. split; [reflexivity|].
  intros d. rewrite Hmem. split.
  - intros [i [j [row [c [Hj [Hi [tp [-> [Hl Hd]]]]]]]]].
    exists i, j, row, tp. rewrite Z.add_0_l in Hd. auto.
  - intros [i [j [row [tp [Hj [Hi [Hl Hd]]]]]]].
    exists i, j, row, (Some (encode_tile tp)). split; [exact Hj|]. split; [exact Hi|].
    exists tp. rewrite Z.add_0_l. auto.
Qed.

Lemma drawLayer_draws_encoded_cells_witness :
  sample_layer.(tiles) = Some sample_tiles /\ cells_encoded sample_tiles /\
  exists tr, drawLayer (fun i => i =? 1) sample_layer 16 Grid = Some tr /\
    forall d, d ∈ tr <->
      exists (x y : nat) row tp,
        sample_tiles !! y = Some row /\ row !! x = Some (Some (encode_tile tp)) /\
        (fun i => i =? 1) tp.(tilesetId) = true /\
        d = drawTile tp.(tilesetId) tp.(tile_x) tp.(tile_y) (Z.of_nat x) (Z.of_nat y) 16 Grid.
Proof.
  assert (H : cells_encoded sample_tiles).
  { unfold cells_encoded, sample_tiles.
    constructor; [|constructor; [|constructor]]; (constructor; [|constructor; [|constructor]]).
    - left. reflexivity.
    - right. exists (mkTilePosition 1 2 3). reflexivity.
    - right. exists (mkTilePosition 2 0 0). reflexivity.
    - left. reflexivity. }
  split; [reflexivity|]. split; [exact H|].
  exact (drawLayer_draws_encoded_cells (fun i => i =? 1) sample_layer sample_tiles 16 Grid
           eq_refl H).
Defined.





Lemma js_set_insert {A} (a : list (option A)) (i : Z) (u v : A) :
  js_get a i = Some u -> js_set a i v = <[Z.to_nat i := Some v]> a.
Proof.
  intros H. destruct (js_get_Some_range _ _ _ H) as [H1 H2].
  unfold js_set. rewrite (proj2 (Z.ltb_ge i 0)) by lia.
  rewrite (proj2 (Nat.ltb_lt _ _)) by lia. reflexivity.
Qed.




Lemma drawAllLayers_app (loaded : Z -> bool) (ts : Q) (mt : MapType) (a b : list (option JsLayer)) :
  drawAllLayers loaded (a ++ b) ts mt
  = match drawAllLayers loaded a ts mt, drawAllLayers loaded b ts mt with
    | Some x, Some y => Some (x ++ y)
    | _, _ => None
    end.
Proof.
  induction a as [|[l|] a IH]; cbn [app drawAllLayers].
  - destruct (drawAllLayers loaded b ts mt); reflexivity.
  - destruct (truthy (visible l)); [|exact IH].
    rewrite IH. destruct (drawLayer loaded l ts mt), (drawAllLayers loaded a ts mt),
      (drawAllLayers loaded b ts mt); try reflexivity. rewrite app_assoc. reflexivity.
  - exact IH.
Qed.

(** X20: hiding a visible layer with [toggleLayerVisibility] makes
    [drawAllLayers] draw exactly what it draws for the layer list without
    that layer. *)
Theorem hidden_layer_not_drawn (loaded : Z -> bool) (ts : Q) (mt : MapType)
    (st st' : EditorState) (i : Z) (l : JsLayer) :
  js_get st.(layers) i = Some l -> truthy l.(visible) = true ->
  toggleLayerVisibility i st = Some st' ->
  drawAllLayers loaded st'.(layers) ts mt
  = drawAllLayers loaded (take (Z.to_nat i) st.(layers) ++ drop (S (Z.to_nat i)) st.(layers)) ts mt.
Proof.
  intros Hget Hvis Ht. unfold toggleLayerVisibility in Ht. rewrite Hget in Ht.
  injection Ht as <-. cbn [with_layers layers].
  destruct (js_get_Some_range _ _ _ Hget) as [H1 H2].
  rewrite (js_set_insert _ _ l) by exact Hget. rewrite insert_take_drop by exact H2.
  rewrite !drawAllLayers_app. cbn [drawAllLayers visible]. rewrite Hvis. reflexivity.
Qed.

Lemma hidden_layer_not_drawn_witness :
  exists st',
    js_get (state_5x5 SmallBrush None).(layers) 0 = Some empty_layer_5x5 /\
    toggleLayerVisibility 0 (state_5x5 SmallBrush None) = Some st' /\
    drawAllLayers (fun _ => true) st'.(layers) 16 Grid
    = drawAllLayers (fun _ => true)
        (take (Z.to_nat 0) (state_5x5 SmallBrush None).(layers)
         ++ drop (S (Z.to_nat 0)) (state_5x5 SmallBrush None).(layers)) 16 Grid.
Proof.
  eexists. split; [reflexivity|]. split; [reflexivity|].
  apply (hidden_layer_not_drawn _ _ _ (state_5x5 SmallBrush None) _ 0 empty_layer_5x5);
    reflexivity.
Defined.
